(** * Sprawl: order replication service and stream manager

    A shallow embedding of [service/order.go] and [p2p/stream.go].

    Go byte slices and Go strings are both modelled as [string] (a list of
    8-bit characters): the source converts freely between the two with
    [string(b)] and [[]byte(s)], which are inverse to each other.

    Stateful code is written in a state monad with one extra outcome,
    [Crash], for a Go run-time panic (a method call on a nil interface, a
    field access through a nil pointer). *)

From Stdlib Require Import ZArith List Ascii String.
From stdpp Require Import base option gmap strings list fin_maps.

Open Scope string_scope.
Open Scope Z_scope.

(** ** Byte strings *)

Module Bytes.

(** [strings.Join(elems, sep)]. *)
Fixpoint Join (elems : list string) (sep : string) : string :=
  match elems with
  | nil => ""
  | e :: nil => e
  | e :: rest => e +:+ sep +:+ Join rest sep
  end.

(** [strings.HasPrefix(s, p)]; also the test the key-value store applies
    in a prefix scan. *)
Definition HasPrefix (s p : string) : bool := String.prefix p s.

End Bytes.

(** ** The storage key scheme ([service/order.go], lines 47-53) *)

Section KeyScheme.

(** [interfaces.OrderPrefix]: the namespace tag of order keys.  The
    constant belongs to package [interfaces], which is not embedded here, so
    the scheme is studied for an arbitrary tag. *)
Variable OrderPrefix : string.

Definition getOrderStorageKey (channelID orderID : string) : string :=
  Bytes.Join (OrderPrefix :: channelID :: orderID :: nil) "".

Definition getOrderQueryPrefix (channelID : string) : string :=
  Bytes.Join (OrderPrefix :: channelID :: nil) "".

End KeyScheme.

(** ** Errors

    Go's [error] interface is an [option]: [nil] is [None]. *)

(** Modelled from the spec: the repository's [errors] package, which is
    not embedded here.  An error is either a failure reported by a
    collaborator (storage I/O, a missing key, an unreachable peer, malformed
    wire bytes) or an operation label wrapped around a cause by [errors.E];
    [errors.IsEmpty] holds of [nil] only. *)
#[warnings="-register-all"]
Inductive Error : Type :=
| Failure (msg : string)
| E (op : string) (cause : option Error).

Abbreviation error := (option Error).

(** Modelled from the spec: [errors.IsEmpty], true of the nil error only. *)
Definition IsEmpty (err : error) : bool :=
  match err with
  | None => true
  | Some _ => false
  end.

(** Modelled from the spec: [errors.E(errors.Op(op), err)], the error [err]
    wrapped in the label of the operation that met it. *)
Definition errors_E (op : string) (err : error) : error := Some (E op err).

(** ** Computations with state and run-time failure *)

(** Why a call did not return. *)
Inductive Fatal : Type :=
| NilDereference   (** a method call or field access through nil *)
| Deadlock.        (** [Lock] on a mutex that is never released *)

Inductive outcome (S A : Type) : Type :=
| Done (a : A) (s : S)
| Crash (why : Fatal) (s : S).

Arguments Done {S A} a s.
Arguments Crash {S A} why s.

Definition M (S A : Type) : Type := S -> outcome S A.

Definition ret {S A} (a : A) : M S A := fun s => Done a s.

Definition bind {S A B} (m : M S A) (k : A -> M S B) : M S B :=
  fun s =>
    match m s with
    | Done a s' => k a s'
    | Crash why s' => Crash why s'
    end.

Definition get {S} : M S S := fun s => Done s s.

Definition panic {S A} (why : Fatal) : M S A := fun s => Crash why s.

Declare Scope go_scope.
Delimit Scope go_scope with go.

Notation "x <- m ;; k" := (bind m (fun x => k))
  (at level 100, m at next level, right associativity) : go_scope.
Notation "'let*' p ':=' m 'in' k" := (bind m (fun p => k))
  (at level 10, p pattern, m at level 100, k at level 200) : go_scope.
Notation "m ;; k" := (bind m (fun _ => k))
  (at level 100, right associativity) : go_scope.

Open Scope go_scope.

(** [for _, x := range xs { body }] *)
Fixpoint forRange {S A} (xs : list A) (body : A -> M S unit) : M S unit :=
  match xs with
  | nil => ret tt
  | x :: rest => (body x ;; forRange rest body)
  end.

(** Run a computation on a component of the state: [proj] reads the
    component, which is a nil-able reference, and [inj] writes it back.
    A method call through a nil reference panics. *)
Definition through {S T A} (proj : S -> option T) (inj : T -> S -> S)
    (m : M T A) : M S A :=
  fun s =>
    match proj s with
    | None => Crash NilDereference s
    | Some t =>
        match m t with
        | Done a t' => Done a (inj t' s)
        | Crash why t' => Crash why (inj t' s)
        end
    end.

(** The state a run ends in, whether it returned or not. *)
Definition final {S A} (o : outcome S A) : S :=
  match o with
  | Done _ s => s
  | Crash _ s => s
  end.

(** [m] leaves the observation [f] of the state as it found it, however it
    ends. *)
Definition keeps {S A B} (f : S -> B) (m : M S A) : Prop :=
  forall s, f (final (m s)) = f s.

(** ** Logging *)

Inductive Level : Type := LevelDebug | LevelInfo | LevelWarn | LevelError.

(** ** Wire records (package [pb]) *)

Module pb.

Record Timestamp : Type := { Seconds : Z; Nanos : Z }.

(** [State] and [Operation] are protobuf enums, that is, [int32] values
    with named constants; a decoded message may carry any number. *)
Definition State_OPEN : Z := 0.

Definition Operation_CREATE : Z := 0.
Definition Operation_DELETE : Z := 1.
Definition Operation_SYNC_REQUEST : Z := 2.
Definition Operation_SYNC_RECEIVE : Z := 3.

(** [Price] is a floating-point field; the service only copies it, so it
    is carried as its bit pattern. *)
Record Order : Type := {
  Id : string;
  Created : option Timestamp;
  Asset : string;
  CounterAsset : string;
  Amount : Z;
  Price : Z;
  State : Z
}.

Record OrderList : Type := { Orders : list Order }.

Record WireMessage : Type := {
  ChannelID : string;
  Operation : Z;
  Data : string
}.

Record CreateRequest : Type := {
  req_ChannelID : string;
  req_Asset : string;
  req_CounterAsset : string;
  req_Amount : Z;
  req_Price : Z
}.

Record CreateResponse : Type := { CreatedOrder : option Order }.

Record OrderSpecificRequest : Type := {
  osr_OrderID : string;
  osr_ChannelID : string
}.

Inductive Empty : Type := mkEmpty.

End pb.

(** What a logger is handed: a format (empty for the non-formatting
    methods) and its arguments. *)
Inductive LogArg : Type :=
| ArgString (s : string)
| ArgInt (z : Z)
| ArgError (e : error)
| ArgOrderList (l : pb.OrderList).

Record LogLine : Type := {
  level : Level;
  format : string;
  args : list LogArg
}.

(** A registered logger, seen as the lines it has received. *)
Abbreviation Log := (list LogLine).

Definition logf (lvl : Level) (fmt : string) (a : list LogArg) : M Log unit :=
  fun lines => Done tt (lines ++ [{| level := lvl; format := fmt; args := a |}])%list.

(** ** Collaborators outside the repository

    The protobuf codec, the HMAC, the textual form of messages and of peer
    identities are library code.  Nothing is assumed of them: every
    definition and theorem below is parametric in this interface. *)
Class Externals : Type := {
  OrderPrefix : string;                          (** [interfaces.OrderPrefix] *)
  peer_String : string -> string;                (** [peer.ID.String] *)
  HMAC_SHA256 : string -> string -> string;      (** key, then message *)
  CreateRequest_String : pb.CreateRequest -> string;
  Timestamp_String : pb.Timestamp -> string;
  Marshal_Order : pb.Order -> string * error;
  Unmarshal_Order : string -> pb.Order * error;
  Marshal_OrderList : pb.OrderList -> string * error;
  Unmarshal_OrderList : string -> pb.OrderList * error;
  Marshal_WireMessage : pb.WireMessage -> string * error;
  Unmarshal_WireMessage : string -> pb.WireMessage * error
}.

(** ** The storage adapter (package [db]) *)

Module db.

Inductive Op : Type := OpPut | OpGet | OpDelete | OpGetAllWithPrefix.

(** Modelled from the spec: the storage adapter behind
    [interfaces.Storage], which is not embedded here.  Its contract is
    [Put(key, value) error]; [Get(key) (value, error)] with an error on a
    missing key; [Delete(key) error] with no error on a missing key;
    [GetAllWithPrefix(prefix) (map, error)] returning the entries whose key
    starts with the prefix.  Storage errors are I/O failures or a missing
    key: [fault] says which operations currently fail with an I/O error,
    and a failing operation leaves the data as it was. *)
Record Storage : Type := {
  data : gmap string string;
  fault : Op -> error
}.

Definition notFound : Error := Failure "not found".

Definition setData (d : gmap string string) (st : Storage) : Storage :=
  {| data := d; fault := fault st |}.

(** Modelled from the spec: [Put(key, value) error]; the entry is written,
    over any earlier one. *)
Definition Put (key value : string) : M Storage error :=
  fun st =>
    match fault st OpPut with
    | Some e => Done (Some e) st
    | None => Done None (setData (<[key := value]> (data st)) st)
    end.

(** Modelled from the spec: [Get(key) (value, error)], with an error on a
    missing key. *)
Definition Get (key : string) : M Storage (string * error) :=
  fun st =>
    match fault st OpGet with
    | Some e => Done ("", Some e) st
    | None =>
        match data st !! key with
        | Some v => Done (v, None) st
        | None => Done ("", Some notFound) st
        end
    end.

(** Modelled from the spec: [Delete(key) error], with no error on a
    missing key. *)
Definition Delete (key : string) : M Storage error :=
  fun st =>
    match fault st OpDelete with
    | Some e => Done (Some e) st
    | None => Done None (setData (delete key (data st)) st)
    end.

(** Modelled from the spec: [GetAllWithPrefix(prefix) (map, error)], the
    entries whose key starts with [prefix]. *)
Definition GetAllWithPrefix (prefix : string)
  : M Storage (gmap string string * error) :=
  fun st =>
    match fault st OpGetAllWithPrefix with
    | Some e => Done (∅, Some e) st
    | None =>
        Done (filter (fun kv : string * string =>
                        Bytes.HasPrefix kv.1 prefix = true) (data st), None) st
    end.

(** A store without I/O failures. *)
Definition healthy (st : Storage) : Prop := forall op, fault st op = None.

Definition noFault : Op -> error := fun _ => None.

End db.

(** ** The stream manager ([p2p/stream.go]) *)

Module p2p.

(** A [network.Stream] of the transport library: the peer at the other
    end, the bytes handed to it so far, whether it was closed. *)
Record Conn : Type := {
  remote : string;
  wire : string;
  closed : bool
}.

(** The transport library's host.  Streams are named by their position in
    [conns].  The three oracles say which dial, write and close currently
    fail. *)
Record Host : Type := {
  conns : list Conn;
  dialFault : string -> error;
  writeFault : nat -> error;
  closeFault : nat -> error
}.

Definition setConns (cs : list Conn) (h : Host) : Host :=
  {| conns := cs; dialFault := dialFault h;
     writeFault := writeFault h; closeFault := closeFault h |}.

(** [host.NewStream(ctx, peerID, networkID)] *)
Definition NewStream (peerID : string) : M Host (option nat * error) :=
  fun h =>
    match dialFault h peerID with
    | Some e => Done (None, Some e) h
    | None =>
        Done (Some (length (conns h)), None)
             (setConns (conns h ++ [{| remote := peerID; wire := ""; closed := false |}])%list h)
    end.

(** [network.Stream.Write] *)
Definition Conn_Write (c : nat) (bytes : string) : M Host error :=
  fun h =>
    match writeFault h c with
    | Some e => Done (Some e) h
    | None =>
        match conns h !! c with
        | None => Done (Some (Failure "unknown stream")) h
        | Some cn =>
            if closed cn then Done (Some (Failure "stream closed")) h
            else Done None
                   (setConns (<[c := {| remote := remote cn;
                                        wire := wire cn +:+ bytes;
                                        closed := false |}]> (conns h)) h)
        end
    end.

(** [network.Stream.Close] *)
Definition Conn_Close (c : nat) : M Host error :=
  fun h =>
    match closeFault h c with
    | Some e => Done (Some e) h
    | None =>
        match conns h !! c with
        | None => Done (Some (Failure "unknown stream")) h
        | Some cn =>
            Done None
              (setConns (<[c := {| remote := remote cn; wire := wire cn;
                                   closed := true |}]> (conns h)) h)
        end
    end.

(** A [bufio.Writer]: the stream it writes to (an interface value, so
    possibly nil), the bytes not yet flushed, and its sticky error.  The
    fixed capacity, which makes a long [Write] flush early, is left out:
    after [Flush] the same bytes have reached the stream in the same
    order. *)
Record Writer : Type := {
  wr : option nat;
  buf : string;
  werr : error
}.

(** [type Stream struct]: [stream] is an interface value, [input] and
    [output] are pointers; [None] is nil.  A pointer to a writer is its
    position in the heap of writers. *)
Record Stream : Type := {
  stream : option nat;
  input : option nat;
  output : option nat
}.

(** The zero value, as in [var newStream Stream]. *)
Definition zeroStream : Stream :=
  {| stream := None; input := None; output := None |}.

(** [type P2p struct], as far as [stream.go] uses it: [host], [streams]
    (a [map[string]*Stream]) and [Logger].  Two more components carry
    what the code reaches through pointers or hands to the network: the
    heap of buffered writers, and the messages given to [Send]. *)
Record P2p : Type := {
  host : Host;
  streams : gmap string Stream;
  Logger : option Log;
  heap : list Writer;
  sent : list pb.WireMessage
}.

Definition setHost (h : Host) (p : P2p) : P2p :=
  {| host := h; streams := streams p; Logger := Logger p;
     heap := heap p; sent := sent p |}.
Definition setStreams (m : gmap string Stream) (p : P2p) : P2p :=
  {| host := host p; streams := m; Logger := Logger p;
     heap := heap p; sent := sent p |}.
Definition setLogger (l : Log) (p : P2p) : P2p :=
  {| host := host p; streams := streams p; Logger := Some l;
     heap := heap p; sent := sent p |}.
Definition setHeap (w : list Writer) (p : P2p) : P2p :=
  {| host := host p; streams := streams p; Logger := Logger p;
     heap := w; sent := sent p |}.
Definition setSent (l : list pb.WireMessage) (p : P2p) : P2p :=
  {| host := host p; streams := streams p; Logger := Logger p;
     heap := heap p; sent := l |}.

Definition onHost {A} (m : M Host A) : M P2p A :=
  through (fun p => Some (host p)) setHost m.

Definition onLogger {A} (m : M Log A) : M P2p A :=
  through Logger setLogger m.

(** [bufio.NewWriter(w)] for a stream [w]: a fresh writer. *)
Definition bufio_NewWriter (w : option nat) : M P2p (option nat) :=
  fun p =>
    Done (Some (length (heap p)))
         (setHeap (heap p ++ [{| wr := w; buf := ""; werr := None |}])%list p).

(** [bufio.NewWriter(w)] for [w] itself a buffered writer of the default
    size: the library returns [w]. *)
Definition bufio_NewWriter_again (w : option nat) : option nat := w.

(** [Write] of a [bufio.Writer] pointer *)
Definition bufio_Write (w : option nat) (bytes : string) : M P2p (Z * error) :=
  match w with
  | None => panic NilDereference
  | Some a =>
      fun p =>
        match heap p !! a with
        | None => Crash NilDereference p
        | Some b =>
            match werr b with
            | Some e => Done (0, Some e) p
            | None =>
                Done (Z.of_nat (String.length bytes), None)
                     (setHeap (<[a := {| wr := wr b; buf := buf b +:+ bytes;
                                         werr := None |}]> (heap p)) p)
            end
        end
  end.

(** [Flush] of a [bufio.Writer] pointer *)
Definition bufio_Flush (w : option nat) : M P2p error :=
  match w with
  | None => panic NilDereference
  | Some a =>
      fun p =>
        match heap p !! a with
        | None => Crash NilDereference p
        | Some b =>
            match werr b with
            | Some e => Done (Some e) p
            | None =>
                if String.eqb (buf b) "" then Done None p
                else
                  match wr b with
                  | None => Crash NilDereference p
                  | Some c =>
                      match Conn_Write c (buf b) (host p) with
                      | Done None h =>
                          Done None
                            (setHeap (<[a := {| wr := wr b; buf := "";
                                                werr := None |}]> (heap p))
                               (setHost h p))
                      | Done (Some e) h =>
                          Done (Some e)
                            (setHeap (<[a := {| wr := wr b; buf := buf b;
                                                werr := Some e |}]> (heap p))
                               (setHost h p))
                      | Crash why h => Crash why (setHost h p)
                      end
                  end
            end
        end
  end.

Section WithExternals.

Context `{Externals}.

(** [func (stream Stream) WriteToStream(data []byte) error] *)
Definition WriteToStream (stream : Stream) (data : string) : M P2p error :=
  let* (_, err) := bufio_Write (input stream) data in
  err <- bufio_Flush (input stream) ;;
  ret err.

(** [OpenStream(peerID peer.ID) (interfaces.Stream, error)], a method of
    the [P2p] pointer *)
Definition OpenStream (peerID : string) : M P2p (Stream * error) :=
  let* (stream, err) := onHost (NewStream peerID) in
  let newStream := zeroStream in
  (match err with
   | Some _ =>
       onLogger (logf LevelError "Stream open failed: %s" [ArgError err])
   | None =>
       inner <- bufio_NewWriter stream ;;
       let writer := bufio_NewWriter_again inner in
       let newStream :=
         {| stream := stream; input := writer; output := None |} in
       (fun p => Done tt (setStreams (<[peer_String peerID := newStream]> (streams p)) p)) ;;
       onLogger (logf LevelDebug "Stream opened with %s" [ArgString peerID])
   end) ;;
  ret (newStream, err).

(** [CloseStream(peerID peer.ID) error], a method of the [P2p] pointer *)
Definition CloseStream (peerID : string) : M P2p error :=
  p <- get ;;
  match streams p !! peer_String peerID with
  | None => panic NilDereference
  | Some s =>
      match stream s with
      | None => panic NilDereference
      | Some c =>
          err <- onHost (Conn_Close c) ;;
          (fun p => Done tt (setStreams (delete (peer_String peerID) (streams p)) p)) ;;
          ret err
      end
  end.

(** Modelled from the spec: [Send], whose source file is not embedded here.
    [Send(WireMessage)] broadcasts on the message's channel topic, with
    no delivery confirmation and no result. *)
Definition Send (message : pb.WireMessage) : M P2p unit :=
  fun p => Done tt (setSent (sent p ++ [message])%list p).

End WithExternals.

(** *** The inbound side *)

(** A [bufio.Reader] over an inbound stream: the bytes that arrive before
    the stream ends, and the error that ends it ([io.EOF], a reset). *)
Record Reader : Type := {
  pending : string;
  ending : Error
}.

(** The frame delimiter, ['\n']. *)
Definition newline : ascii := "010"%char.

(** Split after the first occurrence of [delim]. *)
Fixpoint cutAfter (delim : ascii) (s : string) : option (string * string) :=
  match s with
  | EmptyString => None
  | String c rest =>
      if Ascii.eqb c delim then Some (String c EmptyString, rest)
      else match cutAfter delim rest with
           | Some (a, b) => Some (String c a, b)
           | None => None
           end
  end.

(** [ReadBytes(delim)] of a [bufio.Reader]: the bytes up to and including
    the first [delim]; if the input ends first, the bytes read so far
    together with the error. *)
Definition bufio_ReadBytes (delim : ascii) : M Reader (string * error) :=
  fun r =>
    match cutAfter delim (pending r) with
    | Some (line, rest) =>
        Done (line, None) {| pending := rest; ending := ending r |}
    | None =>
        Done (pending r, Some (ending r)) {| pending := ""; ending := ending r |}
    end.

(** What a receive loop works on: its reader, the receiver behind
    [interfaces.Receiver] (of any state type [R]) and the transport, on which
    the loop would close the stream. *)
Record Inbound (R : Type) : Type := {
  reader : Reader;
  receiver : R;
  transport : P2p
}.

Arguments reader {R} _.
Arguments receiver {R} _.
Arguments transport {R} _.

Definition onReader {R A} (m : M Reader A) : M (Inbound R) A :=
  through (fun i => Some (reader i))
    (fun r i => {| reader := r; receiver := receiver i; transport := transport i |}) m.

Definition onReceiver {R A} (m : M R A) : M (Inbound R) A :=
  through (fun i => Some (receiver i))
    (fun r i => {| reader := reader i; receiver := r; transport := transport i |}) m.

Definition onTransport {R A} (m : M P2p A) : M (Inbound R) A :=
  through (fun i => Some (transport i))
    (fun t i => {| reader := reader i; receiver := receiver i; transport := t |}) m.

(** The [for] loop of [receiveStream], unrolled at most [fuel] times;
    [rcv] is the [Receive] method of the receiver, [None] for a nil
    receiver.  [None] as a result means that [fuel] did not suffice. *)
Fixpoint receiveLoop {R} (fuel : nat) (stream : Stream)
    (rcv : option (string -> M R error)) (i : Inbound R)
  : option (outcome (Inbound R) error) :=
  match fuel with
  | O => None
  | S fuel' =>
      match onReader (bufio_ReadBytes newline) i with
      | Crash why i1 => Some (Crash why i1)
      | Done (data, err) i1 =>
          match err with
          | Some _ => Some (Done (errors_E "Reading bytes from stream" err) i1)
          | None =>
              match rcv with
              | None =>
                  Some (Done (errors_E "No receiver defined for stream.receiveStream"
                                None) i1)
              | Some Receive =>
                  match onReceiver (Receive data) i1 with
                  | Crash why i2 => Some (Crash why i2)
                  | Done err i2 =>
                      if negb (IsEmpty err)
                      then Some (Done (errors_E "Passing data from stream to receiver"
                                         err) i2)
                      else if String.eqb data ""
                      then
                        match p2p.stream stream with
                        | None => Some (Crash NilDereference i2)
                        | Some c =>
                            match onTransport (onHost (Conn_Close c)) i2 with
                            | Done _ i3 => Some (Done None i3)
                            | Crash why i3 => Some (Crash why i3)
                            end
                        end
                      else receiveLoop fuel' stream rcv i2
                  end
              end
          end
      end
  end.

(** [receiveStream(reader, receiver)], a method of [Stream].  Every round
    of the loop that goes on has taken at least one byte off the input, so
    one round more than there are bytes pending is enough. *)
Definition receiveStream {R} (stream : Stream)
    (rcv : option (string -> M R error)) (i : Inbound R)
  : option (outcome (Inbound R) error) :=
  receiveLoop (S (String.length (pending (reader i)))) stream rcv i.

(** The complete frames of an input, each with its delimiter; bytes after
    the last delimiter belong to no frame. *)
Fixpoint frames (delim : ascii) (s : string) : list string :=
  match s with
  | EmptyString => nil
  | String c rest =>
      if Ascii.eqb c delim then String c EmptyString :: frames delim rest
      else match frames delim rest with
           | f :: fs => String c f :: fs
           | nil => nil
           end
  end.

(** A receiver that accepts every frame and keeps it: its state is the
    list of the frames it was handed. *)
Definition recorder : string -> M (list string) error :=
  fun data seen => Done None (seen ++ [data])%list.

End p2p.

(** ** The order replication service ([service/order.go]) *)

Module service.

(** [type SyncState int] *)
Definition UpToDate : Z := 0.
Definition OutOfDate : Z := 1.

(** [type OrderService struct].  The three collaborators are interface
    values, nil until registered; [syncLock] is a [sync.Mutex], [true]
    while held. *)
Record OrderService : Type := {
  Logger : option Log;
  Storage : option db.Storage;
  P2p : option p2p.P2p;
  syncState : Z;
  syncLock : bool
}.

(** The composite literal [&OrderService{Logger: l, Storage: st, P2p: p}]:
    the fields it leaves out take their zero value. *)
Definition newOrderService (l : option Log) (st : option db.Storage)
    (p : option p2p.P2p) : OrderService :=
  {| Logger := l; Storage := st; P2p := p; syncState := 0; syncLock := false |}.

Definition setLogger (l : Log) (s : OrderService) : OrderService :=
  {| Logger := Some l; Storage := Storage s; P2p := P2p s;
     syncState := syncState s; syncLock := syncLock s |}.
Definition setStorage (st : db.Storage) (s : OrderService) : OrderService :=
  {| Logger := Logger s; Storage := Some st; P2p := P2p s;
     syncState := syncState s; syncLock := syncLock s |}.
Definition setP2p (p : p2p.P2p) (s : OrderService) : OrderService :=
  {| Logger := Logger s; Storage := Storage s; P2p := Some p;
     syncState := syncState s; syncLock := syncLock s |}.
Definition setSyncState (x : Z) (s : OrderService) : OrderService :=
  {| Logger := Logger s; Storage := Storage s; P2p := P2p s;
     syncState := x; syncLock := syncLock s |}.
Definition setSyncLock (b : bool) (s : OrderService) : OrderService :=
  {| Logger := Logger s; Storage := Storage s; P2p := P2p s;
     syncState := syncState s; syncLock := b |}.

(** Method calls through the three interface fields. *)
Definition onLogger {A} (m : M Log A) : M OrderService A :=
  through Logger setLogger m.
Definition onStorage {A} (m : M db.Storage A) : M OrderService A :=
  through Storage setStorage m.
Definition onP2p {A} (m : M p2p.P2p A) : M OrderService A :=
  through P2p setP2p m.

(** [sync.Mutex]: in a sequential run, [Lock] on a held mutex never
    returns. *)
Definition Mutex_Lock : M OrderService unit :=
  fun s => if syncLock s then Crash Deadlock s else Done tt (setSyncLock true s).
Definition Mutex_Unlock : M OrderService unit :=
  fun s => Done tt (setSyncLock false s).

Definition SetSyncState (x : Z) : M OrderService unit :=
  Mutex_Lock ;;
  (fun s => Done tt (setSyncState x s)) ;;
  Mutex_Unlock.

Definition GetSyncState (s : OrderService) : Z := syncState s.

(** [RegisterStorage], [RegisterP2p] *)
Definition RegisterStorage (storage : option db.Storage) (s : OrderService)
  : OrderService :=
  {| Logger := Logger s; Storage := storage; P2p := P2p s;
     syncState := syncState s; syncLock := syncLock s |}.
Definition RegisterP2p (p : option p2p.P2p) (s : OrderService) : OrderService :=
  {| Logger := Logger s; Storage := Storage s; P2p := p;
     syncState := syncState s; syncLock := syncLock s |}.

Definition isolated : string :=
  "P2p service not registered with OrderService, not publishing or receiving orders from the network!".

Section WithExternals.

Context `{Externals}.

Definition orderKey (channelID orderID : string) : string :=
  getOrderStorageKey OrderPrefix channelID orderID.

Definition channelPrefix (channelID : string) : string :=
  getOrderQueryPrefix OrderPrefix channelID.

(** [Create]: [now] is the reading [ptypes.TimestampNow()] returns
    during the call. *)
Definition Create (now : pb.Timestamp) (in_ : pb.CreateRequest)
  : M OrderService (pb.CreateResponse * error) :=
  let secret := "mysecret" in
  let id := HMAC_SHA256 secret
              (CreateRequest_String in_ +:+ Timestamp_String now) in
  let order := {| pb.Id := id;
                  pb.Created := Some now;
                  pb.Asset := pb.req_Asset in_;
                  pb.CounterAsset := pb.req_CounterAsset in_;
                  pb.Amount := pb.req_Amount in_;
                  pb.Price := pb.req_Price in_;
                  pb.State := pb.State_OPEN |} in
  let (orderInBytes, err) := Marshal_Order order in
  (if negb (IsEmpty err)
   then onLogger (logf LevelWarn "" [ArgError (errors_E "Marshal order" err)])
   else ret tt) ;;
  err <- onStorage (db.Put (orderKey (pb.req_ChannelID in_) id) orderInBytes) ;;
  let err := if negb (IsEmpty err) then errors_E "Put order" err else err in
  let wireMessage := {| pb.ChannelID := pb.req_ChannelID in_;
                        pb.Operation := pb.Operation_CREATE;
                        pb.Data := orderInBytes |} in
  s <- get ;;
  (match P2p s with
   | Some _ => onP2p (p2p.Send wireMessage)
   | None => onLogger (logf LevelWarn "" [ArgString isolated])
   end) ;;
  ret ({| pb.CreatedOrder := Some order |}, err).

(** The order [Create] constructs from a request and the reading of the
    clock ([order := &pb.Order{...}], with [id] the HMAC above), named for
    the statements about [Create]. *)
Definition createdOrder (now : pb.Timestamp) (in_ : pb.CreateRequest)
  : pb.Order :=
  {| pb.Id := HMAC_SHA256 "mysecret"
                (CreateRequest_String in_ +:+ Timestamp_String now);
     pb.Created := Some now;
     pb.Asset := pb.req_Asset in_;
     pb.CounterAsset := pb.req_CounterAsset in_;
     pb.Amount := pb.req_Amount in_;
     pb.Price := pb.req_Price in_;
     pb.State := pb.State_OPEN |}.

(** The body of [case pb.Operation_SYNC_REQUEST].  Its [err] is a
    variable of the case clause ([orders, err := ...]), so that the
    function's own [err], the one returned after the [switch], stays
    nil; [outer] is that value. *)
Definition syncRequest (channelID from : string) (outer : error)
  : M OrderService error :=
  let* (orders, err) :=
    onStorage (db.GetAllWithPrefix (channelPrefix channelID)) in
  if negb (IsEmpty err) then ret (errors_E "Fetch orders for sync" err) else
  let orderList :=
    {| pb.Orders := map (fun kv : string * string => fst (Unmarshal_Order kv.2))
                        (map_to_list orders) |} in
  let (marshaledOrderList, err) := Marshal_OrderList orderList in
  if negb (IsEmpty err)
  then ret (errors_E "Marshal orderList in sync request" err) else
  let syncMessage := {| pb.Operation := pb.Operation_SYNC_RECEIVE;
                        pb.ChannelID := channelID;
                        pb.Data := marshaledOrderList |} in
  let (marshaledData, err) := Marshal_WireMessage syncMessage in
  if negb (IsEmpty err)
  then ret (errors_E "Marshal wireMessage in sync request" err) else
  let* (stream, err) := onP2p (p2p.OpenStream from) in
  if negb (IsEmpty err)
  then ret (errors_E "Open a sync request stream" err) else
  err <- onP2p (p2p.WriteToStream stream marshaledData) ;;
  if negb (IsEmpty err) then ret (errors_E "Write to stream" err) else
  err <- onP2p (p2p.CloseStream from) ;;
  if negb (IsEmpty err) then ret (errors_E "Close the stream" err) else
  ret outer.

(** The body of [case pb.Operation_SYNC_RECEIVE].  Inside the loop
    [orderBytes, err := ...] declares the loop's own [err]; what happens
    to it is not seen outside. *)
Definition syncReceive (channelID data : string) : M OrderService error :=
  let (orderList, err) := Unmarshal_OrderList data in
  if negb (IsEmpty err)
  then ret (errors_E "Unmarshal order proto in Receive" err) else
  onLogger (logf LevelInfo "" [ArgOrderList orderList]) ;;
  forRange (pb.Orders orderList) (fun order =>
    let (orderBytes, err) := Marshal_Order order in
    let err := if negb (IsEmpty err)
               then errors_E "Marshal order from received orderList" err
               else err in
    err <- onStorage (db.Put (orderKey channelID (pb.Id order)) orderBytes) ;;
    let err := if negb (IsEmpty err) then errors_E "Put order" err else err in
    ret tt) ;;
  ret err.

(** [Receive(buf []byte, from peer.ID) error] *)
Definition Receive (buf : string) (from : string) : M OrderService error :=
  let (wireMessage, err) := Unmarshal_WireMessage buf in
  if negb (IsEmpty err)
  then ret (errors_E "Unmarshal wiremessage proto in Receive" err) else
  let op := pb.Operation wireMessage in
  let data := pb.Data wireMessage in
  let channelID := pb.ChannelID wireMessage in
  if negb (IsEmpty err)
  then ret (errors_E "Constructing peer ID from bytes in Receive" err) else
  onLogger (logf LevelDebug "%s: %s.%s"
              [ArgString (peer_String from); ArgString channelID; ArgInt op]) ;;
  s <- get ;;
  match Storage s with
  | Some _ =>
      if op =? pb.Operation_CREATE then
        let (order, err) := Unmarshal_Order data in
        if negb (IsEmpty err)
        then ret (errors_E "Unmarshal order proto in Receive" err) else
        err <- onStorage (db.Put (orderKey channelID (pb.Id order)) data) ;;
        ret (if negb (IsEmpty err) then errors_E "Put order" err else err)
      else if op =? pb.Operation_DELETE then
        let (order, err) := Unmarshal_Order data in
        if negb (IsEmpty err)
        then ret (errors_E "Unmarshal order proto in Receive" err) else
        err <- onStorage (db.Delete (orderKey channelID (pb.Id order))) ;;
        ret (if negb (IsEmpty err) then errors_E "Put order" err else err)
      else if op =? pb.Operation_SYNC_REQUEST then
        syncRequest channelID from err
      else if op =? pb.Operation_SYNC_RECEIVE then
        syncReceive channelID data
      else ret err
  | None =>
      onLogger (logf LevelWarn ""
                  [ArgString "Storage not registered with OrderService, not persisting Orders!"]) ;;
      ret err
  end.

(** [GetOrder]: the pointer result is nil when the lookup fails. *)
Definition GetOrder (in_ : pb.OrderSpecificRequest)
  : M OrderService (option pb.Order * error) :=
  let* (data, err) :=
    onStorage (db.Get (orderKey (pb.osr_ChannelID in_) (pb.osr_OrderID in_))) in
  if negb (IsEmpty err) then ret (None, errors_E "Get order" err) else
  ret (Some (fst (Unmarshal_Order data)), None).

(** [Delete] *)
Definition Delete (in_ : pb.OrderSpecificRequest)
  : M OrderService (option pb.Empty * error) :=
  let* (orderInBytes, err) :=
    onStorage (db.Get (orderKey (pb.osr_ChannelID in_) (pb.osr_OrderID in_))) in
  if negb (IsEmpty err) then ret (None, errors_E "Delete order" err) else
  let wireMessage := {| pb.ChannelID := pb.osr_ChannelID in_;
                        pb.Operation := pb.Operation_DELETE;
                        pb.Data := orderInBytes |} in
  s <- get ;;
  (match P2p s with
   | Some _ => onP2p (p2p.Send wireMessage)
   | None => onLogger (logf LevelWarn "" [ArgString isolated])
   end) ;;
  err <- onStorage (db.Delete (orderKey (pb.osr_ChannelID in_) (pb.osr_OrderID in_))) ;;
  let err := if negb (IsEmpty err) then errors_E "Delete order" err else err in
  ret (Some pb.mkEmpty, err).

(** What a channel's stored entries decode to, in the order the map is
    walked. *)
Definition storedOrders (st : db.Storage) (channelID : string) : pb.OrderList :=
  {| pb.Orders :=
       map (fun kv : string * string => fst (Unmarshal_Order kv.2))
           (map_to_list
              (filter (fun kv : string * string =>
                         Bytes.HasPrefix kv.1 (channelPrefix channelID) = true)
                      (db.data st))) |}.

(** The envelope that answers a sync request for a channel. *)
Definition syncResponse (st : db.Storage) (channelID : string) : pb.WireMessage :=
  {| pb.ChannelID := channelID;
     pb.Operation := pb.Operation_SYNC_RECEIVE;
     pb.Data := fst (Marshal_OrderList (storedOrders st channelID)) |}.

(** [GetAllOrders]: every entry under the order namespace, decoded; a
    value that does not decode still yields an order. *)
Definition GetAllOrders : M OrderService (option pb.OrderList * error) :=
  let* (data, err) := onStorage (db.GetAllWithPrefix OrderPrefix) in
  if negb (IsEmpty err) then ret (None, errors_E "Get all orders" err) else
  let orders := map (fun kv : string * string => fst (Unmarshal_Order kv.2))
                    (map_to_list data) in
  ret (Some {| pb.Orders := orders |}, None).

(** [Lock] and [Unlock]: not implemented, both return an empty reply. *)
Definition Lock (in_ : pb.OrderSpecificRequest)
  : M OrderService (option pb.Empty * error) :=
  ret (Some pb.mkEmpty, None).

Definition Unlock (in_ : pb.OrderSpecificRequest)
  : M OrderService (option pb.Empty * error) :=
  ret (Some pb.mkEmpty, None).

(** What the loop of SYNC_RECEIVE leaves in a store whose writes succeed:
    one entry per order of the list, written in the order of the list. *)
Definition applied (channelID : string) (orders : list pb.Order)
    (d : gmap string string) : gmap string string :=
  fold_left (fun d o => <[orderKey channelID (pb.Id o) := fst (Marshal_Order o)]> d)
            orders d.

End WithExternals.

End service.

(** ** Configuration ([config/config.go]) *)

Module config.

Definition dbPathVar : string := "database.path".
Definition dbInMemoryVar : string := "database.inMemory".
Definition rpcPortVar : string := "rpc.port".
Definition p2pExternalIPVar : string := "p2p.externalIP".
Definition p2pPortVar : string := "p2p.port".
Definition p2pDebugVar : string := "p2p.debug".
Definition p2pRelayVar : string := "p2p.enableRelay".
Definition p2pAutoRelayVar : string := "p2p.enableAutoRelay".
Definition p2pNATPortMapVar : string := "p2p.enableNATPortMap".
Definition ipfsPeerVar : string := "p2p.useIPFSPeers".
Definition errorsEnableStackTraceVar : string := "errors.enableStackTrace".
Definition logLevelVar : string := "log.level".
Definition logFormatVar : string := "log.format".
Definition websocketEnableVar : string := "websocket.enable".
Definition websocketPortVar : string := "websocket.port".

(** What [ReadConfig] sets on its [viper.Viper]. *)
Record Viper : Type := {
  envPrefix : string;
  envKeyReplacer : list string;
  automaticEnv : bool;
  configName : string;
  configType : string;
  configPaths : list string
}.

(** [viper.New()], as far as the fields above go. *)
Definition viper_New : Viper :=
  {| envPrefix := ""; envKeyReplacer := nil; automaticEnv := false;
     configName := "config"; configType := ""; configPaths := nil |}.

(** How [ReadInConfig] ends. *)
Inductive ReadOutcome : Type :=
| Loaded
| ConfigFileNotFoundError (e : Error)
| OtherError (e : Error).

(** [type Config struct]: a pointer and two maps, nil in the zero value.
    [stdout] holds the lines written with [fmt.Println]. *)
Record Config : Type := {
  v : option Viper;
  strings : option (gmap string string);
  booleans : option (gmap string bool);
  stdout : list string
}.

Definition zeroConfig : Config :=
  {| v := None; strings := None; booleans := None; stdout := nil |}.

(** The settings [ReadConfig] makes: the search paths are added only for
    a non-empty [configPath]. *)
Definition configured (configPath : string) : Viper :=
  {| envPrefix := "sprawl"; envKeyReplacer := ["."; "_"]; automaticEnv := true;
     configName := "config"; configType := "toml";
     configPaths := if String.eqb configPath "" then nil else ["."; configPath] |}.

Section WithViper.

(** The environment and the libraries: the values viper finds for a key
    (in the process environment or the configuration file), how reading the
    file ends, and the two casts of package [cast]. *)
Variable Value : Type.
Variable viper_Get : Viper -> string -> Value.
Variable viper_ReadInConfig : Viper -> ReadOutcome.
Variable cast_ToStringE : Value -> string * error.
Variable cast_ToBoolE : Value -> bool * error.

Definition setV (x : Viper) (c : Config) : Config :=
  {| v := Some x; strings := strings c; booleans := booleans c; stdout := stdout c |}.
Definition setStrings (m : gmap string string) (c : Config) : Config :=
  {| v := v c; strings := Some m; booleans := booleans c; stdout := stdout c |}.
Definition setBooleans (m : gmap string bool) (c : Config) : Config :=
  {| v := v c; strings := strings c; booleans := Some m; stdout := stdout c |}.

Definition onViper {A} (m : M Viper A) : M Config A := through v setV m.

Definition Println (line : string) : M Config unit :=
  fun c => Done tt {| v := v c; strings := strings c; booleans := booleans c;
                      stdout := (stdout c ++ [line])%list |}.

(** [c.v.Get(key)] *)
Definition Get (key : string) : M Config Value :=
  onViper (fun x => Done (viper_Get x key) x).

(** [c.strings[key] = s]: an assignment to an entry of a nil map panics. *)
Definition storeString (key s : string) : M Config unit :=
  through strings setStrings (fun m => Done tt (<[key := s]> m)).

Definition storeBoolean (key : string) (b : bool) : M Config unit :=
  through booleans setBooleans (fun m => Done tt (<[key := b]> m)).

Definition AddStringE (key : string) : M Config error :=
  x <- Get key ;;
  let (s, err) := cast_ToStringE x in
  storeString key s ;;
  ret err.

Definition AddBooleanE (key : string) : M Config error :=
  x <- Get key ;;
  let (b, err) := cast_ToBoolE x in
  storeBoolean key b ;;
  ret err.

Definition ReadConfig (configPath : string) : M Config unit :=
  (fun c => Done tt {| v := Some viper_New; strings := Some ∅;
                       booleans := Some ∅; stdout := stdout c |}) ;;
  let envPrefix := "sprawl" in
  onViper (fun x => Done tt
    {| envPrefix := envPrefix; envKeyReplacer := ["."; "_"];
       automaticEnv := true; configName := "config"; configType := "toml";
       configPaths := configPaths x |}) ;;
  (if negb (String.eqb configPath "")
   then onViper (fun x => Done tt
          {| envPrefix := config.envPrefix x; envKeyReplacer := envKeyReplacer x;
             automaticEnv := automaticEnv x; configName := configName x;
             configType := configType x;
             configPaths := (configPaths x ++ ["."; configPath])%list |})
   else ret tt) ;;
  r <- onViper (fun x => Done (viper_ReadInConfig x) x) ;;
  (match r with
   | ConfigFileNotFoundError _ => Println "Config file not found, using ENV"
   | OtherError _ => Println "Config file invalid!"
   | Loaded => Println "Config successfully loaded."
   end) ;;
  AddStringE dbPathVar ;;
  AddStringE p2pExternalIPVar ;;
  AddStringE p2pPortVar ;;
  AddStringE rpcPortVar ;;
  AddStringE websocketPortVar ;;
  AddBooleanE websocketEnableVar ;;
  AddBooleanE dbInMemoryVar ;;
  AddBooleanE p2pNATPortMapVar ;;
  AddBooleanE p2pRelayVar ;;
  AddBooleanE p2pAutoRelayVar ;;
  AddBooleanE p2pDebugVar ;;
  AddBooleanE errorsEnableStackTraceVar ;;
  AddBooleanE ipfsPeerVar ;;
  AddBooleanE logLevelVar ;;
  AddBooleanE logFormatVar ;;
  ret tt.

(** [c.v.GetString(key)] and [c.v.GetBool(key)]: viper casts what it finds
    and drops the cast's error. *)
Definition viper_GetString (key : string) : M Config string :=
  x <- Get key ;; ret (fst (cast_ToStringE x)).
Definition viper_GetBool (key : string) : M Config bool :=
  x <- Get key ;; ret (fst (cast_ToBoolE x)).

Definition GetDatabasePath : M Config string := viper_GetString dbPathVar.
Definition GetExternalIP : M Config string := viper_GetString p2pExternalIPVar.
Definition GetP2PPort : M Config string := viper_GetString p2pPortVar.
Definition GetRPCPort : M Config string := viper_GetString rpcPortVar.
Definition GetWebsocketPort : M Config string := viper_GetString websocketPortVar.
Definition GetWebsocketEnable : M Config bool := viper_GetBool websocketEnableVar.
Definition GetInMemoryDatabaseSetting : M Config bool := viper_GetBool dbInMemoryVar.
Definition GetNATPortMapSetting : M Config bool := viper_GetBool p2pNATPortMapVar.
Definition GetRelaySetting : M Config bool := viper_GetBool p2pRelayVar.
Definition GetAutoRelaySetting : M Config bool := viper_GetBool p2pAutoRelayVar.
Definition GetDebugSetting : M Config bool := viper_GetBool p2pDebugVar.
Definition GetStackTraceSetting : M Config bool := viper_GetBool errorsEnableStackTraceVar.
Definition GetIPFSPeerSetting : M Config bool := viper_GetBool ipfsPeerVar.
Definition GetLogLevel : M Config string := viper_GetString logLevelVar.
Definition GetLogFormat : M Config string := viper_GetString logFormatVar.

End WithViper.

End config.

(** ** A small instance of the collaborators

    Concrete inputs on which the definitions above can be run: a
    line-oriented codec standing in for protobuf, and a service with an
    empty store and a transport that reaches every peer. *)

Module Fixture.

(** Split at the first occurrence of [sep]. *)
Fixpoint cut (sep : ascii) (s : string) : option (string * string) :=
  match s with
  | EmptyString => None
  | String c rest =>
      if Ascii.eqb c sep then Some (EmptyString, rest)
      else match cut sep rest with
           | Some (a, b) => Some (String c a, b)
           | None => None
           end
  end.

(** The pieces between occurrences of [sep]. *)
Fixpoint pieces (sep : ascii) (s : string) : list string :=
  match s with
  | EmptyString => [EmptyString]
  | String c rest =>
      if Ascii.eqb c sep then EmptyString :: pieces sep rest
      else match pieces sep rest with
           | h :: t => String c h :: t
           | nil => [String c EmptyString]
           end
  end.

Definition orderOfId (id : string) : pb.Order :=
  {| pb.Id := id; pb.Created := None; pb.Asset := ""; pb.CounterAsset := "";
     pb.Amount := 0; pb.Price := 0; pb.State := pb.State_OPEN |}.

Definition malformed : Error := Failure "malformed bytes".

(** An order travels as its id. *)
Definition marshalOrder (o : pb.Order) : string * error := (pb.Id o, None).
Definition unmarshalOrder (b : string) : pb.Order * error := (orderOfId b, None).

(** An order list travels as its ids, each followed by a semicolon. *)
Definition marshalOrderList (l : pb.OrderList) : string * error :=
  (fold_right (fun o acc => pb.Id o +:+ ";" +:+ acc) "" (pb.Orders l), None).
Definition unmarshalOrderList (b : string) : pb.OrderList * error :=
  let ps := pieces ";" b in
  match last ps with
  | Some EmptyString => ({| pb.Orders := map orderOfId (removelast ps) |}, None)
  | _ => ({| pb.Orders := nil |}, Some malformed)
  end.

(** An envelope travels as the digit of its operation, the channel, a
    colon, and the payload. *)
Definition marshalWireMessage (m : pb.WireMessage) : string * error :=
  let body := pb.ChannelID m +:+ ":" +:+ pb.Data m in
  match pb.Operation m with
  | 0 => ("0" +:+ body, None)
  | 1 => ("1" +:+ body, None)
  | 2 => ("2" +:+ body, None)
  | 3 => ("3" +:+ body, None)
  | _ => ("", Some malformed)
  end.
Definition emptyWireMessage : pb.WireMessage :=
  {| pb.ChannelID := ""; pb.Operation := 0; pb.Data := "" |}.
Definition unmarshalWireMessage (b : string) : pb.WireMessage * error :=
  match b with
  | EmptyString => (emptyWireMessage, Some malformed)
  | String d rest =>
      let op := if Ascii.eqb d "0" then Some 0
                else if Ascii.eqb d "1" then Some 1
                else if Ascii.eqb d "2" then Some 2
                else if Ascii.eqb d "3" then Some 3
                else None in
      match op, cut ":" rest with
      | Some n, Some (c, payload) =>
          ({| pb.ChannelID := c; pb.Operation := n; pb.Data := payload |}, None)
      | _, _ => (emptyWireMessage, Some malformed)
      end
  end.

#[global] Instance externals : Externals := {|
  OrderPrefix := "order-";
  peer_String := fun p => p;
  HMAC_SHA256 := fun key msg => key +:+ "/" +:+ msg;
  CreateRequest_String := fun r =>
    pb.req_ChannelID r +:+ "," +:+ pb.req_Asset r +:+ "," +:+ pb.req_CounterAsset r;
  Timestamp_String := fun t => if pb.Seconds t =? 0 then "epoch" else "later";
  Marshal_Order := marshalOrder;
  Unmarshal_Order := unmarshalOrder;
  Marshal_OrderList := marshalOrderList;
  Unmarshal_OrderList := unmarshalOrderList;
  Marshal_WireMessage := marshalWireMessage;
  Unmarshal_WireMessage := unmarshalWireMessage
|}.

Definition emptyStore : db.Storage := {| db.data := ∅; db.fault := db.noFault |}.

(** A store whose writes fail. *)
Definition readOnlyStore : db.Storage :=
  {| db.data := ∅;
     db.fault := fun op => match op with
                           | db.OpPut => Some (Failure "disk full")
                           | _ => None
                           end |}.

Definition openHost : p2p.Host :=
  {| p2p.conns := nil; p2p.dialFault := fun _ => None;
     p2p.writeFault := fun _ => None; p2p.closeFault := fun _ => None |}.

Definition transport : p2p.P2p :=
  {| p2p.host := openHost; p2p.streams := ∅; p2p.Logger := Some nil;
     p2p.heap := nil; p2p.sent := nil |}.

(** Storage, transport and logger registered. *)
Definition node : service.OrderService :=
  service.newOrderService (Some nil) (Some emptyStore) (Some transport).

(** A relay: no storage. *)
Definition relay : service.OrderService :=
  service.newOrderService (Some nil) None (Some transport).

(** An isolated node: no transport. *)
Definition hermit : service.OrderService :=
  service.newOrderService (Some nil) (Some emptyStore) None.

Definition request : pb.CreateRequest :=
  {| pb.req_ChannelID := "c1"; pb.req_Asset := "ETH"; pb.req_CounterAsset := "BTC";
     pb.req_Amount := 52152; pb.req_Price := 1045220557 |}.

Definition noon : pb.Timestamp := {| pb.Seconds := 1577880000; pb.Nanos := 0 |}.

(** A node that holds one order of channel ["c1"]. *)
Definition stockedStore : db.Storage :=
  {| db.data := {[ "order-c1o1" := "o1" ]}; db.fault := db.noFault |}.

Definition stockedNode : service.OrderService :=
  service.newOrderService (Some nil) (Some stockedStore) (Some transport).

(** A node whose store rejects writes. *)
Definition fullNode : service.OrderService :=
  service.newOrderService (Some nil) (Some readOnlyStore) (Some transport).

Definition o1 : pb.OrderSpecificRequest :=
  {| pb.osr_OrderID := "o1"; pb.osr_ChannelID := "c1" |}.

(** A codec with failures: it cannot encode an order, it rejects an empty
    order payload, and it reads a leading ["9"] as an operation that no
    constant names. *)
Definition faulty : Externals := {|
  OrderPrefix := "order-";
  peer_String := fun p => p;
  HMAC_SHA256 := fun key msg => key +:+ "/" +:+ msg;
  CreateRequest_String := fun r =>
    pb.req_ChannelID r +:+ "," +:+ pb.req_Asset r +:+ "," +:+ pb.req_CounterAsset r;
  Timestamp_String := fun t => if pb.Seconds t =? 0 then "epoch" else "later";
  Marshal_Order := fun o => (pb.Id o, Some malformed);
  Unmarshal_Order := fun b =>
    (orderOfId b, if String.eqb b "" then Some malformed else None);
  Marshal_OrderList := marshalOrderList;
  Unmarshal_OrderList := unmarshalOrderList;
  Marshal_WireMessage := marshalWireMessage;
  Unmarshal_WireMessage := fun b =>
    match b with
    | String d rest =>
        if Ascii.eqb d "9"
        then ({| pb.ChannelID := rest; pb.Operation := 9; pb.Data := "" |}, None)
        else unmarshalWireMessage b
    | EmptyString => unmarshalWireMessage b
    end
|}.

(** A transport that reaches no peer. *)
Definition offlineTransport : p2p.P2p :=
  {| p2p.host := {| p2p.conns := nil;
                    p2p.dialFault := fun _ => Some (Failure "no route");
                    p2p.writeFault := fun _ => None;
                    p2p.closeFault := fun _ => None |};
     p2p.streams := ∅; p2p.Logger := Some nil;
     p2p.heap := nil; p2p.sent := nil |}.

Definition offlineNode : service.OrderService :=
  service.newOrderService (Some nil) (Some emptyStore) (Some offlineTransport).

(** A store that holds one order and rejects removals. *)
Definition stuckStore : db.Storage :=
  {| db.data := {[ "order-c1o1" := "o1" ]};
     db.fault := fun op => match op with
                           | db.OpDelete => Some (Failure "read-only")
                           | _ => None
                           end |}.

Definition stuckNode : service.OrderService :=
  service.newOrderService (Some nil) (Some stuckStore) (Some transport).

(** The transport after a stream to ["peerA"] was opened. *)
Definition dialed : p2p.P2p := final (p2p.OpenStream "peerA" transport).

(** An inbound stream on which ["abc"] arrives before the stream ends. *)
Definition trickle : p2p.Inbound (list string) :=
  {| p2p.reader := {| p2p.pending := "abc"; p2p.ending := Failure "EOF" |};
     p2p.receiver := nil;
     p2p.transport := transport |}.


(** Whether every byte of a text is below 128. *)
Fixpoint asciiOnly (s : string) : bool :=
  match s with
  | EmptyString => true
  | String c rest => (N_of_ascii c <? 128)%N && asciiOnly rest
  end.

(** The toy codec, except that an order whose asset names are not plain
    ASCII is not encoded: the encoder returns no bytes and an error. *)
Definition strict : Externals := {|
  OrderPrefix := "order-";
  peer_String := fun p => p;
  HMAC_SHA256 := fun key msg => key +:+ "/" +:+ msg;
  CreateRequest_String := fun r =>
    pb.req_ChannelID r +:+ "," +:+ pb.req_Asset r +:+ "," +:+ pb.req_CounterAsset r;
  Timestamp_String := fun t => if pb.Seconds t =? 0 then "epoch" else "later";
  Marshal_Order := fun o =>
    if asciiOnly (pb.Asset o) && asciiOnly (pb.CounterAsset o)
    then marshalOrder o
    else ("", Some (Failure "invalid UTF-8"));
  Unmarshal_Order := unmarshalOrder;
  Marshal_OrderList := marshalOrderList;
  Unmarshal_OrderList := unmarshalOrderList;
  Marshal_WireMessage := marshalWireMessage;
  Unmarshal_WireMessage := unmarshalWireMessage
|}.

(** A request whose asset name holds the byte 255. *)
Definition garbled : pb.CreateRequest :=
  {| pb.req_ChannelID := "c1"; pb.req_Asset := String "255" "TH";
     pb.req_CounterAsset := "BTC";
     pb.req_Amount := 52152; pb.req_Price := 1045220557 |}.

End Fixture.

(** * Properties *)

(** ** Byte strings *)

Section BytesFacts.

Lemma app_nil_l (s : string) : "" +:+ s = s.
Proof. reflexivity. Qed.

Lemma app_cons (x : ascii) (s t : string) :
  String x s +:+ t = String x (s +:+ t).
Proof. reflexivity. Qed.

Lemma app_empty_r (s : string) : s +:+ "" = s.
Proof.
  induction s as [|a s IH]; [reflexivity |].
  now rewrite app_cons, IH.
Qed.

Lemma app_assoc (a b c : string) : (a +:+ b) +:+ c = a +:+ b +:+ c.
Proof.
  induction a as [|x a IH]; [reflexivity |].
  now rewrite !app_cons, IH.
Qed.

Lemma app_inv_head (a b c : string) : a +:+ b = a +:+ c -> b = c.
Proof.
  induction a as [|x a IH]; intros H; [exact H |].
  rewrite !app_cons in H. injection H as H. now apply IH.
Qed.

(** Two concatenations that agree split at the same place as soon as their
    left parts have the same length. *)
Lemma app_inj_length (a b c d : string) :
  String.length a = String.length c ->
  a +:+ b = c +:+ d -> a = c /\ b = d.
Proof.
  revert c; induction a as [|x a IH]; intros [|y c] Hlen H;
    try discriminate Hlen.
  - split; [reflexivity | exact H].
  - injection Hlen as Hlen. rewrite !app_cons in H. injection H as Hx H.
    destruct (IH c Hlen H) as [Ha Hb]. subst. split; reflexivity.
Qed.

Lemma prefix_empty (s : string) : String.prefix "" s = true.
Proof. destruct s; reflexivity. Qed.

Lemma prefix_cons (x y : ascii) (p s : string) :
  String.prefix (String x p) (String y s)
  = if ascii_dec x y then String.prefix p s else false.
Proof. reflexivity. Qed.

(** The scan test is the usual prefix relation. *)
Lemma HasPrefix_spec (s p : string) :
  Bytes.HasPrefix s p = true <-> exists t, s = p +:+ t.
Proof.
  unfold Bytes.HasPrefix. revert s; induction p as [|x p IH]; intros s.
  - rewrite prefix_empty. split; [intros _; exists s; reflexivity | reflexivity].
  - destruct s as [|y s].
    + split; [discriminate | intros [t Ht]; discriminate].
    + rewrite prefix_cons. destruct (ascii_dec x y) as [->|Hne].
      * rewrite IH. split; intros [t Ht]; exists t.
        -- now rewrite app_cons, Ht.
        -- rewrite app_cons in Ht. congruence.
      * split; [discriminate |].
        intros [t Ht]. rewrite app_cons in Ht. congruence.
Qed.

Lemma HasPrefix_app (a s p : string) :
  Bytes.HasPrefix (a +:+ s) (a +:+ p) = Bytes.HasPrefix s p.
Proof.
  unfold Bytes.HasPrefix. induction a as [|x a IH]; [reflexivity |].
  rewrite !app_cons, prefix_cons.
  destruct (ascii_dec x x); [exact IH | congruence].
Qed.

(** If [a] is a prefix of [b +:+ t] then one of [a], [b] is a prefix of the
    other. *)
Lemma HasPrefix_app_comparable (a b t : string) :
  Bytes.HasPrefix (b +:+ t) a = true ->
  Bytes.HasPrefix b a = true \/ Bytes.HasPrefix a b = true.
Proof.
  unfold Bytes.HasPrefix. revert b; induction a as [|x a IH]; intros b H.
  - left. apply prefix_empty.
  - destruct b as [|y b].
    + right. reflexivity.
    + rewrite app_cons in H. rewrite !prefix_cons in *.
      destruct (ascii_dec x y) as [->|Hne]; [|discriminate].
      destruct (ascii_dec y y); [|congruence]. now apply IH.
Qed.

End BytesFacts.

(** ** Errors and the monad *)

Lemma IsEmpty_errors_E (op : string) (err : error) :
  IsEmpty (errors_E op err) = false.
Proof. reflexivity. Qed.

Lemma IsEmpty_true (err : error) : IsEmpty err = true <-> err = None.
Proof. destruct err; simpl; split; congruence. Qed.

Lemma IsEmpty_false (err : error) : IsEmpty err = false <-> err <> None.
Proof. destruct err; simpl; split; congruence. Qed.

Lemma bind_Done {S A B} (m : M S A) (k : A -> M S B) (s s' : S) (a : A) :
  m s = Done a s' -> bind m k s = k a s'.
Proof. unfold bind. now intros ->. Qed.

Lemma bind_Crash {S A B} (m : M S A) (k : A -> M S B) (s s' : S) why :
  m s = Crash why s' -> bind m k s = Crash why s'.
Proof. unfold bind. now intros ->. Qed.

Lemma through_None {S T A} (proj : S -> option T) inj (m : M T A) (s : S) :
  proj s = None -> through proj inj m s = Crash NilDereference s.
Proof. unfold through. now intros ->. Qed.

Lemma through_Done {S T A} (proj : S -> option T) inj (m : M T A)
    (s : S) (t t' : T) (a : A) :
  proj s = Some t -> m t = Done a t' -> through proj inj m s = Done a (inj t' s).
Proof. unfold through. now intros -> ->. Qed.

(** ** The key scheme *)

Section KeySchemeFacts.

Variable OrderPrefix : string.

Lemma getOrderStorageKey_app (c i : string) :
  getOrderStorageKey OrderPrefix c i = OrderPrefix +:+ c +:+ i.
Proof. reflexivity. Qed.

Lemma getOrderQueryPrefix_app (c : string) :
  getOrderQueryPrefix OrderPrefix c = OrderPrefix +:+ c.
Proof. reflexivity. Qed.

Lemma getOrderStorageKey_query (c i : string) :
  getOrderStorageKey OrderPrefix c i = getOrderQueryPrefix OrderPrefix c +:+ i.
Proof. symmetry. exact (app_assoc OrderPrefix c i). Qed.

(** A key of channel [b] is caught by the scan prefix of channel [a]
    exactly when [a] is a prefix of [b] followed by the order id. *)
Lemma key_under_prefix (a b i : string) :
  Bytes.HasPrefix (getOrderStorageKey OrderPrefix b i)
                  (getOrderQueryPrefix OrderPrefix a)
  = Bytes.HasPrefix (b +:+ i) a.
Proof. exact (HasPrefix_app OrderPrefix (b +:+ i) a). Qed.

(** Every key of a channel lies under the channel's own scan prefix. *)
Lemma key_under_own_prefix (c i : string) :
  Bytes.HasPrefix (getOrderStorageKey OrderPrefix c i)
                  (getOrderQueryPrefix OrderPrefix c) = true.
Proof.
  rewrite key_under_prefix. apply HasPrefix_spec. now exists i.
Qed.

(** Distinct channels of the same length are not prefixes of each other. *)
Lemma same_length_not_prefix (a b : string) :
  String.length a = String.length b -> a <> b -> Bytes.HasPrefix b a = false.
Proof.
  intros Hlen Hne. destruct (Bytes.HasPrefix b a) eqn:Hp; [|reflexivity].
  apply HasPrefix_spec in Hp as [t Ht]. exfalso. apply Hne.
  assert (Ht' : b +:+ "" = a +:+ t) by now rewrite app_empty_r.
  symmetry in Hlen.
  destruct (app_inj_length _ _ _ _ Hlen Ht') as [Hba _]. now symmetry.
Qed.

(** When one of two channels is a prefix of the other, some key of
    channel [b] does lie under the scan prefix of channel [a]. *)
Lemma comparable_channels_overlap (a b : string) :
  Bytes.HasPrefix b a = true \/ Bytes.HasPrefix a b = true ->
  exists i, Bytes.HasPrefix (getOrderStorageKey OrderPrefix b i)
                            (getOrderQueryPrefix OrderPrefix a) = true.
Proof.
  intros [Hab | Hba].
  - apply HasPrefix_spec in Hab as [t ->]. exists "".
    rewrite key_under_prefix. apply HasPrefix_spec.
    exists t. apply app_empty_r.
  - apply HasPrefix_spec in Hba as [t ->]. exists t.
    rewrite key_under_prefix. apply HasPrefix_spec.
    exists "". symmetry. apply app_empty_r.
Qed.

End KeySchemeFacts.

(** C2, as stated, fails: bare concatenation maps the pairs [("ab", "c")]
    and [("a", "bc")] to the same key, whatever the namespace tag. *)
Lemma getOrderStorageKey_not_injective :
  ~ (forall (OrderPrefix c1 id1 c2 id2 : string),
       getOrderStorageKey OrderPrefix c1 id1 = getOrderStorageKey OrderPrefix c2 id2 ->
       c1 = c2 /\ id1 = id2).
Proof.
  intros Hinj.
  destruct (Hinj "order-" "ab" "c" "a" "bc" eq_refl) as [Hc _].
  discriminate Hc.
Qed.

(** C2, amended: the storage key is injective in the pair (channel,
    orderID) exactly between channels that are equal or of which neither
    is a prefix of the other.  For such [c1], [c2] equal keys come from
    equal pairs (in particular the key is injective in the orderID for a
    fixed channel); and when one channel is a proper prefix of the other,
    two different pairs do share a key. *)
Theorem getOrderStorageKey_injective_iff (OrderPrefix c1 c2 : string) :
  (forall id1 id2 : string,
     getOrderStorageKey OrderPrefix c1 id1 = getOrderStorageKey OrderPrefix c2 id2 ->
     c1 = c2 /\ id1 = id2)
  <->
  (c1 = c2 \/
   (Bytes.HasPrefix c2 c1 = false /\ Bytes.HasPrefix c1 c2 = false)).
Proof.
  split.
  - intros Hinj. destruct (string_dec c1 c2) as [Heq | Hne]; [now left | right].
    split.
    + destruct (Bytes.HasPrefix c2 c1) eqn:Hp; [|reflexivity].
      apply HasPrefix_spec in Hp as [t Ht]. exfalso. apply Hne.
      apply (Hinj t ""). rewrite !getOrderStorageKey_app. f_equal.
      rewrite Ht. now rewrite app_assoc, app_empty_r.
    + destruct (Bytes.HasPrefix c1 c2) eqn:Hp; [|reflexivity].
      apply HasPrefix_spec in Hp as [t Ht]. exfalso. apply Hne.
      apply (Hinj "" t). rewrite !getOrderStorageKey_app. f_equal.
      rewrite Ht. now rewrite app_assoc, app_empty_r.
  - intros Hcond id1 id2 Hkey. rewrite !getOrderStorageKey_app in Hkey.
    apply app_inv_head in Hkey.
    destruct Hcond as [<- | [H21 H12]].
    + split; [reflexivity |]. exact (app_inv_head c1 id1 id2 Hkey).
    + exfalso.
      assert (Hp : Bytes.HasPrefix (c2 +:+ id2) c1 = true)
        by (apply HasPrefix_spec; exists id1; now symmetry).
      destruct (HasPrefix_app_comparable c1 c2 id2 Hp); congruence.
Qed.

Lemma getOrderStorageKey_injective_iff_witness :
  (forall id1 id2 : string,
     getOrderStorageKey "order-" "c1" id1 = getOrderStorageKey "order-" "c1" id2 ->
     "c1" = "c1" /\ id1 = id2) /\
  (forall id1 id2 : string,
     getOrderStorageKey "order-" "ab" id1 = getOrderStorageKey "order-" "xyz" id2 ->
     "ab" = "xyz" /\ id1 = id2) /\
  ~ (forall id1 id2 : string,
       getOrderStorageKey "order-" "a" id1 = getOrderStorageKey "order-" "ab" id2 ->
       "a" = "ab" /\ id1 = id2).
Proof.
  split; [| split].
  - apply (proj2 (getOrderStorageKey_injective_iff "order-" "c1" "c1")).
    left. reflexivity.
  - apply (proj2 (getOrderStorageKey_injective_iff "order-" "ab" "xyz")).
    right. split; reflexivity.
  - intros Hinj.
    destruct (proj1 (getOrderStorageKey_injective_iff "order-" "a" "ab") Hinj)
      as [Heq | [Hp _]]; discriminate.
Defined.

(** C3, as stated, fails: channel ["a"] is a prefix of channel ["ab"], so
    every key of ["ab"] starts with the scan prefix of ["a"], and a scan for
    ["a"] returns the orders stored under ["ab"]. *)
Lemma channel_scan_overlap :
  "a" <> "ab" /\
  Bytes.HasPrefix (getOrderStorageKey "order-" "ab" "o1")
                  (getOrderQueryPrefix "order-" "a") = true /\
  exists st found,
    db.Put (getOrderStorageKey "order-" "ab" "o1") "bytes" Fixture.emptyStore
      = Done None st /\
    db.GetAllWithPrefix (getOrderQueryPrefix "order-" "a") st
      = Done (found, None) st /\
    found !! getOrderStorageKey "order-" "ab" "o1" = Some "bytes".
Proof.
  split; [discriminate |]. split; [reflexivity |].
  eexists. eexists. split; [reflexivity |]. split; [reflexivity |].
  vm_compute. reflexivity.
Qed.

(** C3, amended: for two channels A and B neither of which is a prefix of
    the other, no key produced for an order of channel B starts with A's scan
    prefix; hence a [GetAllWithPrefix] scan on A's prefix never returns an
    entry stored under a key of channel B. *)
Theorem channel_scan_isolated (OrderPrefix A B id : string) (st : db.Storage) :
  Bytes.HasPrefix B A = false ->
  Bytes.HasPrefix A B = false ->
  Bytes.HasPrefix (getOrderStorageKey OrderPrefix B id)
                  (getOrderQueryPrefix OrderPrefix A) = false /\
  forall found err st',
    db.GetAllWithPrefix (getOrderQueryPrefix OrderPrefix A) st = Done (found, err) st' ->
    found !! getOrderStorageKey OrderPrefix B id = None.
Proof.
  intros HBA HAB.
  assert (Hkey : Bytes.HasPrefix (getOrderStorageKey OrderPrefix B id)
                   (getOrderQueryPrefix OrderPrefix A) = false).
  { rewrite key_under_prefix.
    destruct (Bytes.HasPrefix (B +:+ id) A) eqn:Hp; [|reflexivity].
    destruct (HasPrefix_app_comparable A B id Hp); congruence. }
  split; [exact Hkey |].
  intros found err st' Hscan. unfold db.GetAllWithPrefix in Hscan.
  destruct (db.fault st db.OpGetAllWithPrefix).
  - injection Hscan as <- _ _. apply lookup_empty.
  - injection Hscan as <- _ _.
    apply map_lookup_filter_None. right. intros v _ Hp. simpl in Hp. congruence.
Qed.

Lemma channel_scan_isolated_witness :
  Bytes.HasPrefix (getOrderStorageKey "order-" "c2" "o1")
                  (getOrderQueryPrefix "order-" "c1") = false /\
  forall found err st',
    db.GetAllWithPrefix (getOrderQueryPrefix "order-" "c1") Fixture.emptyStore
      = Done (found, err) st' ->
    found !! getOrderStorageKey "order-" "c2" "o1" = None.
Proof.
  apply (channel_scan_isolated "order-" "c1" "c2" "o1" Fixture.emptyStore);
    reflexivity.
Defined.

(** ** The sync latch *)

Section SyncStateFacts.

Import service.

Lemma SetSyncState_free (x : Z) (s : OrderService) :
  syncLock s = false ->
  SetSyncState x s
  = Done tt (setSyncLock false (setSyncState x (setSyncLock true s))).
Proof.
  intros Hfree. unfold SetSyncState, Mutex_Lock, Mutex_Unlock, bind.
  now rewrite Hfree.
Qed.

(** A run of [SetSyncState] calls on a free latch returns, with the latch
    free again. *)
Lemma SetSyncState_run (xs : list Z) (s : OrderService) :
  syncLock s = false ->
  exists s', forRange xs SetSyncState s = Done tt s' /\ syncLock s' = false.
Proof.
  revert s; induction xs as [|x xs IH]; intros s Hfree.
  - exists s. split; [reflexivity | exact Hfree].
  - simpl. unfold bind at 1. rewrite (SetSyncState_free x s Hfree).
    exact (IH (setSyncLock false (setSyncState x (setSyncLock true s))) eq_refl).
Qed.

(** C9: a freshly constructed service reports [UpToDate] before any call
    to [SetSyncState], and after sequential calls to [SetSyncState], the
    last of them with value [x], [GetSyncState] returns [x]. *)
Theorem GetSyncState_default_and_last
    (l : option Log) (st : option db.Storage) (p : option p2p.P2p)
    (xs : list Z) (x : Z) :
  GetSyncState (newOrderService l st p) = UpToDate /\
  exists s',
    (forRange xs SetSyncState ;; SetSyncState x) (newOrderService l st p)
      = Done tt s' /\
    GetSyncState s' = x.
Proof.
  split; [reflexivity |].
  destruct (SetSyncState_run xs (newOrderService l st p) eq_refl)
    as (s1 & Hrun & Hfree).
  unfold bind at 1. rewrite Hrun, (SetSyncState_free x s1 Hfree).
  eexists. split; reflexivity.
Qed.

(** Registering collaborators does not touch the latch. *)
Lemma Register_keeps_syncState (st : option db.Storage) (p : option p2p.P2p)
    (s : OrderService) :
  GetSyncState (RegisterP2p p (RegisterStorage st s)) = GetSyncState s.
Proof. reflexivity. Qed.

End SyncStateFacts.

(** ** The stream manager *)

Section StreamFacts.

Context `{Externals}.

Import p2p.

(** Whatever the dial does, [OpenStream] hands back the zero [Stream]:
    the stream it builds and registers is bound to a second [newStream],
    local to the [else] block. *)
Lemma OpenStream_returns_zero (peerID : string) (p p' : P2p)
    (s : Stream) (err : error) :
  OpenStream peerID p = Done (s, err) p' -> s = zeroStream.
Proof.
  unfold OpenStream, bind, onHost, onLogger, through, NewStream, ret. simpl.
  destruct (dialFault (host p) peerID); simpl.
  - destruct (Logger p); simpl; intros Heq; now inversion Heq.
  - destruct (Logger p); simpl; intros Heq; now inversion Heq.
Qed.

(** Writing to the zero [Stream] goes through its nil [input]. *)
Lemma WriteToStream_zero (data : string) (p : P2p) :
  WriteToStream zeroStream data p = Crash NilDereference p.
Proof. reflexivity. Qed.

(** A reachable peer: the connection is opened and the stream, with its
    writer, is registered under the peer's name. *)
Lemma OpenStream_registers (peerID : string) (p : P2p) (lg : Log) :
  dialFault (host p) peerID = None ->
  Logger p = Some lg ->
  exists p',
    OpenStream peerID p = Done (zeroStream, None) p' /\
    streams p' !! peer_String peerID
      = Some {| stream := Some (length (conns (host p)));
                input := Some (length (heap p));
                output := None |} /\
    conns (host p')
      = (conns (host p) ++ [{| remote := peerID; wire := ""; closed := false |}])%list /\
    heap p' = (heap p ++ [{| wr := Some (length (conns (host p)));
                             buf := ""; werr := None |}])%list /\
    sent p' = sent p /\
    writeFault (host p') = writeFault (host p) /\
    closeFault (host p') = closeFault (host p).
Proof.
  intros Hdial Hlog.
  unfold OpenStream, bind, onHost, onLogger, through, NewStream, ret. simpl.
  rewrite Hdial. simpl. rewrite Hlog. simpl.
  eexists. split; [reflexivity |]. simpl.
  split; [apply lookup_insert_eq |]. repeat split; reflexivity.
Qed.

(** The stream that [OpenStream] registers is a working one: a write to it
    delivers the bytes to the new connection. *)
Lemma WriteToStream_registered (peerID data : string) (p p1 : P2p) (lg : Log) :
  dialFault (host p) peerID = None ->
  Logger p = Some lg ->
  writeFault (host p) (length (conns (host p))) = None ->
  OpenStream peerID p = Done (zeroStream, None) p1 ->
  exists s p2,
    streams p1 !! peer_String peerID = Some s /\
    WriteToStream s data p1 = Done None p2 /\
    conns (host p2) !! length (conns (host p))
    = Some {| remote := peerID; wire := data; closed := false |}.
Proof.
  intros Hdial Hlog Hwrite Hopen.
  destruct (OpenStream_registers peerID p lg Hdial Hlog)
    as (p' & Hopen' & Hs & Hconns & Hheap & _ & Hwf & _).
  rewrite Hopen in Hopen'. injection Hopen' as <-.
  assert (Hw : heap p1 !! length (heap p)
               = Some {| wr := Some (length (conns (host p)));
                         buf := ""; werr := None |}).
  { rewrite Hheap. now apply list_lookup_middle. }
  assert (Hc : conns (host p1) !! length (conns (host p))
               = Some {| remote := peerID; wire := ""; closed := false |}).
  { rewrite Hconns. now apply list_lookup_middle. }
  pose proof (lookup_lt_Some _ _ _ Hw) as Hwlt.
  pose proof (lookup_lt_Some _ _ _ Hc) as Hclt.
  exists {| stream := Some (length (conns (host p)));
            input := Some (length (heap p)); output := None |}.
  unfold WriteToStream, bind, bufio_Write, bufio_Flush, ret. simpl.
  rewrite Hw. simpl.
  rewrite list_lookup_insert_eq by exact Hwlt. simpl.
  change ("" +:+ data) with data.
  destruct (String.eqb data "") eqn:Hempty.
  - apply String.eqb_eq in Hempty. subst data.
    eexists. split; [exact Hs |]. split; [reflexivity |]. exact Hc.
  - unfold Conn_Write. rewrite Hwf, Hwrite, Hc. simpl.
    eexists. split; [exact Hs |]. split; [reflexivity |]. simpl.
    now apply list_lookup_insert_eq.
Qed.

(** C7: closing the stream of a peer that has no entry in the stream map
    does not return an error: the map lookup yields a nil pointer, whose
    [stream] field the code reads, and the call panics. *)
Theorem CloseStream_unknown_peer (peerID : string) (p : P2p) :
  streams p !! peer_String peerID = None ->
  CloseStream peerID p = Crash NilDereference p.
Proof.
  intros Hnone. unfold CloseStream, bind, get. now rewrite Hnone.
Qed.

(** For a known peer whose connection is live, [CloseStream] closes the
    connection and removes the map entry. *)
Lemma CloseStream_known_peer (peerID : string) (p : P2p)
    (s : Stream) (c : nat) (cn : Conn) :
  streams p !! peer_String peerID = Some s ->
  stream s = Some c ->
  conns (host p) !! c = Some cn ->
  closeFault (host p) c = None ->
  exists p',
    CloseStream peerID p = Done None p' /\
    streams p' = delete (peer_String peerID) (streams p) /\
    conns (host p')
      = <[c := {| remote := remote cn; wire := wire cn; closed := true |}]>
          (conns (host p)).
Proof.
  intros Hs Hc Hcn Hok.
  unfold CloseStream, bind, get, onHost, through, Conn_Close, ret.
  rewrite Hs, Hc. simpl. rewrite Hok, Hcn. simpl.
  eexists. split; [reflexivity |]. split; reflexivity.
Qed.

End StreamFacts.

Lemma CloseStream_unknown_peer_witness :
  p2p.CloseStream "peerA" Fixture.transport
  = Crash NilDereference Fixture.transport.
Proof.
  apply (CloseStream_unknown_peer "peerA" Fixture.transport). reflexivity.
Defined.

(** ** The order replication service *)

Section ServiceFacts.

Context `{Externals}.

Import service.

Lemma onLogger_logf (lvl : Level) (fmt : string) (a : list LogArg)
    (s : OrderService) (lg : Log) :
  Logger s = Some lg ->
  onLogger (logf lvl fmt a) s
  = Done tt (setLogger (lg ++ [{| level := lvl; format := fmt; args := a |}])%list s).
Proof. intros Hlg. unfold onLogger, through, logf. now rewrite Hlg. Qed.

Lemma onStorage_Done {A} (m : M db.Storage A) (s : OrderService)
    (st st' : db.Storage) (a : A) :
  Storage s = Some st -> m st = Done a st' ->
  onStorage m s = Done a (setStorage st' s).
Proof. apply through_Done. Qed.

Lemma onP2p_Done {A} (m : M p2p.P2p A) (s : OrderService)
    (p p' : p2p.P2p) (a : A) :
  P2p s = Some p -> m p = Done a p' ->
  onP2p m s = Done a (setP2p p' s).
Proof. apply through_Done. Qed.

Lemma onP2p_Crash {A} (m : M p2p.P2p A) (s : OrderService)
    (p p' : p2p.P2p) why :
  P2p s = Some p -> m p = Crash why p' ->
  onP2p m s = Crash why (setP2p p' s).
Proof. unfold onP2p, through. now intros -> ->. Qed.

(** C5: when the envelope does not decode, [Receive] returns the decode
    error and does nothing else: the service, with its storage, its
    transport and its streams, is as it was. *)
Theorem Receive_decode_failure (buf from : string) (s : OrderService) :
  IsEmpty (snd (Unmarshal_WireMessage buf)) = false ->
  Receive buf from s
  = Done (errors_E "Unmarshal wiremessage proto in Receive"
            (snd (Unmarshal_WireMessage buf))) s.
Proof.
  intros Hbad. unfold Receive.
  destruct (Unmarshal_WireMessage buf) as [wireMessage err]. simpl in *.
  now rewrite Hbad.
Qed.

(** The steps of a sync request up to the call of [OpenStream]. *)
Ltac sync_request_to_open st msg Hdec Hop Hlg Hst Hscan Hml Hmw :=
  unfold Receive; rewrite Hdec; simpl; rewrite Hop; simpl;
  erewrite bind_Done by (apply onLogger_logf; eassumption);
  unfold get at 1; unfold bind at 1; simpl; rewrite Hst;
  unfold syncRequest;
  erewrite bind_Done
    by (eapply onStorage_Done;
        [simpl; eassumption
        | unfold db.GetAllWithPrefix; rewrite Hscan; reflexivity]);
  simpl;
  fold (storedOrders st (pb.ChannelID msg));
  unfold syncResponse in Hmw;
  destruct (Marshal_OrderList (storedOrders st _)) as [marshaledOrderList ?e];
  simpl in Hml, Hmw; subst; simpl;
  destruct (Marshal_WireMessage _) as [marshaledData ?e];
  simpl in Hmw; subst; simpl.

(** C1: [Receive] of a SYNC_REQUEST, with storage and transport
    registered, a peer that can be reached and every encoding succeeding,
    does not write the SYNC_RECEIVE envelope to the opened stream, does not
    close it and does not return: [OpenStream] opens and registers the
    stream but hands back the zero [Stream], and the write through its nil
    writer panics.  The opened connection has received no byte. *)
Theorem Receive_sync_request_panics
    (buf from : string) (s : OrderService) (msg : pb.WireMessage)
    (lg : Log) (st : db.Storage) (p : p2p.P2p) (plg : Log) :
  Unmarshal_WireMessage buf = (msg, None) ->
  pb.Operation msg = pb.Operation_SYNC_REQUEST ->
  Logger s = Some lg ->
  Storage s = Some st ->
  P2p s = Some p ->
  p2p.Logger p = Some plg ->
  db.fault st db.OpGetAllWithPrefix = None ->
  snd (Marshal_OrderList (storedOrders st (pb.ChannelID msg))) = None ->
  snd (Marshal_WireMessage (syncResponse st (pb.ChannelID msg))) = None ->
  p2p.dialFault (p2p.host p) from = None ->
  exists s' p',
    Receive buf from s = Crash NilDereference s' /\
    Storage s' = Some st /\
    P2p s' = Some p' /\
    p2p.conns (p2p.host p')
      = (p2p.conns (p2p.host p)
           ++ [{| p2p.remote := from; p2p.wire := ""; p2p.closed := false |}])%list.
Proof.
  intros Hdec Hop Hlg Hst Hp Hplg Hscan Hml Hmw Hdial.
  destruct (OpenStream_registers from p plg Hdial Hplg)
    as (p1 & Hopen & _ & Hconns & _).
  sync_request_to_open st msg Hdec Hop Hlg Hst Hscan Hml Hmw.
  erewrite bind_Done by (eapply onP2p_Done; [exact Hp | exact Hopen]).
  simpl.
  erewrite bind_Crash
    by (eapply onP2p_Crash; [reflexivity | apply WriteToStream_zero]).
  eexists. exists p1. split; [reflexivity |]. repeat split. exact Hconns.
Qed.

(** On a node with storage, no SYNC_REQUEST is ever answered: whatever
    the transport, the codec and the outcome of the dial, [Receive] does not
    return nil. *)
Lemma Receive_sync_request_never_nil
    (buf from : string) (s s' : OrderService) (st : db.Storage) :
  pb.Operation (fst (Unmarshal_WireMessage buf)) = pb.Operation_SYNC_REQUEST ->
  Storage s = Some st ->
  Receive buf from s <> Done None s'.
Proof.
  intros Hop Hst. unfold Receive.
  destruct (Unmarshal_WireMessage buf) as [msg err0]. simpl in Hop.
  destruct err0 as [e0|]; simpl; [discriminate |].
  rewrite Hop. simpl.
  unfold syncRequest, bind, onLogger, onStorage, onP2p, through, logf, get, ret,
    db.GetAllWithPrefix.
  destruct (Logger s) as [lg|] eqn:Hlg; [| discriminate].
  destruct (P2p s) as [p|] eqn:Hp;
    destruct (db.fault st db.OpGetAllWithPrefix) eqn:Hscan;
    repeat (progress (simpl; rewrite ?Hst, ?Hscan, ?Hp)); try discriminate.
  - destruct (Marshal_OrderList _) as [mol [e1|]]; simpl; [discriminate |].
    destruct (Marshal_WireMessage _) as [md [e2|]]; simpl; [discriminate |].
    rewrite Hp.
    destruct (p2p.OpenStream from p) as [[strm [e3|]] p1|why p1] eqn:Hopen;
      simpl; try discriminate.
    apply OpenStream_returns_zero in Hopen. subst strm. simpl. discriminate.
  - destruct (Marshal_OrderList _) as [mol [e1|]]; simpl; [discriminate |].
    destruct (Marshal_WireMessage _) as [md [e2|]]; simpl; [discriminate |].
    rewrite Hp. discriminate.
Qed.

(** C6: [Receive] of a well-formed SYNC_REQUEST on a node with storage
    but without transport panics: the reply is prepared and then
    [OpenStream] is called on the nil transport, without the nil test that
    [Create] and [Delete] make. *)
Theorem Receive_sync_request_without_transport
    (buf from : string) (s : OrderService) (msg : pb.WireMessage)
    (lg : Log) (st : db.Storage) :
  Unmarshal_WireMessage buf = (msg, None) ->
  pb.Operation msg = pb.Operation_SYNC_REQUEST ->
  Logger s = Some lg ->
  Storage s = Some st ->
  P2p s = None ->
  db.fault st db.OpGetAllWithPrefix = None ->
  snd (Marshal_OrderList (storedOrders st (pb.ChannelID msg))) = None ->
  snd (Marshal_WireMessage (syncResponse st (pb.ChannelID msg))) = None ->
  exists s', Receive buf from s = Crash NilDereference s'.
Proof.
  intros Hdec Hop Hlg Hst Hp Hscan Hml Hmw.
  sync_request_to_open st msg Hdec Hop Hlg Hst Hscan Hml Hmw.
  erewrite bind_Crash by (apply through_None; exact Hp).
  eexists. reflexivity.
Qed.

(** Without storage, a well-formed message of any operation is dropped:
    [Receive] returns nil, with or without transport. *)
Lemma Receive_without_storage (buf from : string) (s : OrderService) (lg : Log) :
  IsEmpty (snd (Unmarshal_WireMessage buf)) = true ->
  Logger s = Some lg ->
  Storage s = None ->
  exists s',
    Receive buf from s = Done None s' /\ Storage s' = None /\ P2p s' = P2p s.
Proof.
  intros Hok Hlg Hst. unfold Receive.
  destruct (Unmarshal_WireMessage buf) as [wireMessage err]. simpl in Hok.
  apply IsEmpty_true in Hok. subst err. simpl.
  erewrite bind_Done by (apply onLogger_logf; eassumption).
  unfold get at 1. unfold bind at 1. simpl. rewrite Hst.
  erewrite bind_Done by (apply onLogger_logf; reflexivity).
  eexists. split; [reflexivity |]. split; [exact Hst | reflexivity].
Qed.

(** What [Create] does on a node with storage and logger, whether or not
    the write succeeds and whether or not a transport is registered. *)
Lemma Create_run (now : pb.Timestamp) (in_ : pb.CreateRequest)
    (s : OrderService) (st : db.Storage) (lg : Log) :
  Storage s = Some st ->
  Logger s = Some lg ->
  exists order s' st',
    Create now in_ s
    = Done ({| pb.CreatedOrder := Some order |},
            match db.fault st db.OpPut with
            | Some e => errors_E "Put order" (Some e)
            | None => None
            end) s' /\
    pb.Id order = HMAC_SHA256 "mysecret"
                    (CreateRequest_String in_ +:+ Timestamp_String now) /\
    pb.Created order = Some now /\
    pb.State order = pb.State_OPEN /\
    pb.Asset order = pb.req_Asset in_ /\
    pb.CounterAsset order = pb.req_CounterAsset in_ /\
    pb.Amount order = pb.req_Amount in_ /\
    pb.Price order = pb.req_Price in_ /\
    Storage s' = Some st' /\
    db.Put (orderKey (pb.req_ChannelID in_) (pb.Id order))
           (fst (Marshal_Order order)) st = Done (db.fault st db.OpPut) st' /\
    match P2p s with
    | None => P2p s' = None
    | Some p =>
        exists p', P2p s' = Some p' /\
          p2p.sent p'
          = (p2p.sent p ++ [{| pb.ChannelID := pb.req_ChannelID in_;
                               pb.Operation := pb.Operation_CREATE;
                               pb.Data := fst (Marshal_Order order) |}])%list
    end.
Proof.
  intros Hst Hlg. unfold Create.
  set (order := {| pb.Id := _ |}).
  exists order.
  destruct (Marshal_Order order) as [orderInBytes e0] eqn:Hm. simpl.
  unfold bind, onLogger, onStorage, onP2p, through, logf, db.Put, p2p.Send,
    get, ret.
  destruct (P2p s) as [p|] eqn:Hp;
    destruct e0 as [e0|]; destruct (db.fault st db.OpPut) as [e|] eqn:Hput;
    repeat (progress (simpl; rewrite ?Hp, ?Hlg, ?Hst, ?Hput));
    (eexists; eexists; split; [reflexivity |]);
    simpl; repeat (split; [reflexivity |]); eauto.
Qed.

(** [Create] needs the logger exactly when it has something to log: on a
    node without logger it panics as soon as the order cannot be encoded or
    no transport is registered. *)
Lemma Create_without_logger (now : pb.Timestamp) (in_ : pb.CreateRequest)
    (s : OrderService) (st : db.Storage) :
  Storage s = Some st ->
  Logger s = None ->
  P2p s = None \/ snd (Marshal_Order (createdOrder now in_)) <> None ->
  exists s', Create now in_ s = Crash NilDereference s'.
Proof.
  intros Hst Hlg Hneed. unfold Create.
  change {| pb.Id := _; pb.Created := _; pb.Asset := _; pb.CounterAsset := _;
            pb.Amount := _; pb.Price := _; pb.State := _ |}
    with (createdOrder now in_).
  destruct (Marshal_Order (createdOrder now in_)) as [orderInBytes e0].
  simpl in Hneed.
  unfold bind, onLogger, onStorage, onP2p, through, logf, db.Put, p2p.Send,
    get, ret.
  destruct e0 as [e0|]; simpl; rewrite ?Hlg; [eexists; reflexivity |].
  destruct Hneed as [Hp | Hbad]; [| congruence].
  destruct (db.fault st db.OpPut) eqn:Hput;
    repeat (progress (simpl; rewrite ?Hp, ?Hlg, ?Hst, ?Hput));
    eexists; reflexivity.
Qed.



(** [Delete] of a key that storage does not hold: the read fails, and
    the call returns its error before any broadcast or removal. *)
Lemma Delete_absent (in_ : pb.OrderSpecificRequest) (s : OrderService)
    (st : db.Storage) :
  Storage s = Some st ->
  db.fault st db.OpGet = None ->
  db.data st !! orderKey (pb.osr_ChannelID in_) (pb.osr_OrderID in_) = None ->
  Delete in_ s = Done (None, errors_E "Delete order" (Some db.notFound)) s.
Proof.
  intros Hst Hget Hnone.
  unfold Delete, bind, onStorage, through, db.Get, ret.
  rewrite Hst, Hget, Hnone. simpl.
  destruct s; simpl in *; subst; reflexivity.
Qed.

(** [Delete] of a key that storage holds: the DELETE envelope, carrying
    the stored bytes, goes to the transport if there is one, and the key is
    removed. *)
Lemma Delete_present (in_ : pb.OrderSpecificRequest) (s : OrderService)
    (st : db.Storage) (v : string) :
  Storage s = Some st ->
  db.healthy st ->
  db.data st !! orderKey (pb.osr_ChannelID in_) (pb.osr_OrderID in_) = Some v ->
  (P2p s = None -> Logger s <> None) ->
  exists s1,
    Delete in_ s = Done (Some pb.mkEmpty, None) s1 /\
    Storage s1
    = Some (db.setData
              (delete (orderKey (pb.osr_ChannelID in_) (pb.osr_OrderID in_))
                      (db.data st)) st) /\
    match P2p s with
    | None => P2p s1 = None
    | Some p =>
        exists p', P2p s1 = Some p' /\
          p2p.sent p'
          = (p2p.sent p ++ [{| pb.ChannelID := pb.osr_ChannelID in_;
                               pb.Operation := pb.Operation_DELETE;
                               pb.Data := v |}])%list
    end.
Proof.
  intros Hst Hok Hv Hlog.
  pose proof (Hok db.OpGet) as Hget. pose proof (Hok db.OpDelete) as Hdel.
  unfold Delete, bind, onStorage, onP2p, onLogger, through, db.Get,
    db.Delete, p2p.Send, logf, get, ret.
  rewrite Hst, Hget, Hv. simpl.
  destruct (P2p s) as [p|] eqn:Hp.
  - repeat (progress (simpl; rewrite ?Hp, ?Hst, ?Hdel)).
    eexists. split; [reflexivity |]. simpl. split; [reflexivity |].
    eexists. split; reflexivity.
  - destruct (Logger s) as [lg|] eqn:Hlg; [| now destruct Hlog].
    repeat (progress (simpl; rewrite ?Hp, ?Hlg, ?Hst, ?Hdel)).
    eexists. split; [reflexivity |]. simpl. split; [reflexivity | exact Hp].
Qed.

(** C4, amended: on a store without I/O failures, of two [Delete] calls
    in sequence for one (channel, orderID) the second returns a "Delete
    order" error, because the read of the key reports it missing; that
    second call changes nothing, broadcasts nothing, and storage is without
    the key. *)
Theorem Delete_twice (in_ : pb.OrderSpecificRequest) (s : OrderService)
    (st : db.Storage) :
  Storage s = Some st ->
  db.healthy st ->
  (P2p s = None -> Logger s <> None) ->
  exists r1 s1 st1,
    Delete in_ s = Done r1 s1 /\
    Storage s1 = Some st1 /\
    db.data st1 !! orderKey (pb.osr_ChannelID in_) (pb.osr_OrderID in_) = None /\
    Delete in_ s1
    = Done (None, errors_E "Delete order" (Some db.notFound)) s1.
Proof.
  intros Hst Hok Hlog.
  destruct (db.data st !! orderKey (pb.osr_ChannelID in_) (pb.osr_OrderID in_))
    as [v|] eqn:Hv.
  - destruct (Delete_present in_ s st v Hst Hok Hv Hlog) as (s1 & Hrun & Hst1 & _).
    eexists. exists s1. eexists. split; [exact Hrun |]. split; [exact Hst1 |].
    assert (Hgone : db.data
              (db.setData
                 (delete (orderKey (pb.osr_ChannelID in_) (pb.osr_OrderID in_))
                         (db.data st)) st)
            !! orderKey (pb.osr_ChannelID in_) (pb.osr_OrderID in_) = None)
      by apply lookup_delete_eq.
    split; [exact Hgone |].
    apply (Delete_absent in_ s1 _ Hst1); [exact (Hok db.OpGet) | exact Hgone].
  - pose proof (Delete_absent in_ s st Hst (Hok db.OpGet) Hv) as Hrun.
    eexists. exists s, st. split; [exact Hrun |]. split; [exact Hst |].
    split; [exact Hv | exact Hrun].
Qed.

End ServiceFacts.

Lemma Receive_decode_failure_witness :
  service.Receive "" "peerA" Fixture.node
  = Done (errors_E "Unmarshal wiremessage proto in Receive"
            (snd (Unmarshal_WireMessage ""))) Fixture.node.
Proof.
  apply (Receive_decode_failure "" "peerA" Fixture.node). reflexivity.
Defined.

Lemma Receive_sync_request_panics_witness :
  exists s' p',
    service.Receive "2c1:" "peerA" Fixture.node = Crash NilDereference s' /\
    service.Storage s' = Some Fixture.emptyStore /\
    service.P2p s' = Some p' /\
    p2p.conns (p2p.host p')
    = [{| p2p.remote := "peerA"; p2p.wire := ""; p2p.closed := false |}].
Proof.
  apply (Receive_sync_request_panics "2c1:" "peerA" Fixture.node
           {| pb.ChannelID := "c1"; pb.Operation := pb.Operation_SYNC_REQUEST;
              pb.Data := "" |}
           nil Fixture.emptyStore Fixture.transport nil); reflexivity.
Defined.

Lemma Receive_sync_request_without_transport_witness :
  exists s', service.Receive "2c1:" "peerA" Fixture.hermit = Crash NilDereference s'.
Proof.
  apply (Receive_sync_request_without_transport "2c1:" "peerA" Fixture.hermit
           {| pb.ChannelID := "c1"; pb.Operation := pb.Operation_SYNC_REQUEST;
              pb.Data := "" |}
           nil Fixture.emptyStore); reflexivity.
Defined.




(** C4, as stated, fails: on a node that holds the order, the first
    [Delete] succeeds and the second returns an error. *)
Lemma Delete_twice_second_call_errors :
  exists s1,
    service.Delete Fixture.o1 Fixture.stockedNode
    = Done (Some pb.mkEmpty, None) s1 /\
    service.Delete Fixture.o1 s1
    = Done (None, Some (E "Delete order" (Some (Failure "not found")))) s1.
Proof.
  eexists. split; [vm_compute; reflexivity |]. vm_compute. reflexivity.
Qed.

Lemma Delete_twice_witness :
  exists r1 s1 st1,
    service.Delete Fixture.o1 Fixture.stockedNode = Done r1 s1 /\
    service.Storage s1 = Some st1 /\
    db.data st1 !! service.orderKey "c1" "o1" = None /\
    service.Delete Fixture.o1 s1
    = Done (None, errors_E "Delete order" (Some db.notFound)) s1.
Proof.
  apply (Delete_twice Fixture.o1 Fixture.stockedNode Fixture.stockedStore).
  - reflexivity.
  - intros op. reflexivity.
  - intros Hnone. discriminate Hnone.
Defined.

(** * Further properties *)

(** ** Invariants of a run *)

Section KeepsFacts.

Lemma keeps_ret {S A B} (f : S -> B) (a : A) : keeps f (ret a : M S A).
Proof. intros s. reflexivity. Qed.

Lemma keeps_get {S B} (f : S -> B) : keeps f (get : M S S).
Proof. intros s. reflexivity. Qed.

Lemma keeps_bind {S A A' B} (f : S -> B) (m : M S A) (k : A -> M S A') :
  keeps f m -> (forall a, keeps f (k a)) -> keeps f (bind m k).
Proof.
  intros Hm Hk s. unfold bind. specialize (Hm s).
  destruct (m s) as [a s1|why s1]; simpl in *.
  - rewrite (Hk a s1). exact Hm.
  - exact Hm.
Qed.

(** A call through a component keeps whatever the write-back keeps. *)
Lemma keeps_through {S T A B} (f : S -> B) (proj : S -> option T)
    (inj : T -> S -> S) (m : M T A) :
  (forall t s, f (inj t s) = f s) -> keeps f (through proj inj m).
Proof.
  intros Hinj s. unfold through.
  destruct (proj s) as [t|]; [|reflexivity].
  destruct (m t); simpl; apply Hinj.
Qed.

Lemma keeps_forRange {S A B} (f : S -> B) (xs : list A) (body : A -> M S unit) :
  (forall x, keeps f (body x)) -> keeps f (forRange xs body).
Proof.
  intros Hbody. induction xs as [|x xs IH]; simpl.
  - apply keeps_ret.
  - apply keeps_bind; [apply Hbody | intros _; exact IH].
Qed.

Lemma keeps_if {S A B} (f : S -> B) (b : bool) (m1 m2 : M S A) :
  keeps f m1 -> keeps f m2 -> keeps f (if b then m1 else m2).
Proof. destruct b; auto. Qed.

End KeepsFacts.

Ltac keeps_step :=
  first
    [ apply keeps_ret
    | apply keeps_get
    | apply keeps_through; intros; reflexivity
    | apply keeps_forRange; intros
    | apply keeps_bind; [| intros]
    | apply keeps_if
    | match goal with
      | |- keeps _ (let (_, _) := ?p in _) => destruct p
      | |- keeps _ (match ?x with _ => _ end) => destruct x
      end ].

(** ** The key scheme, continued *)

(** X1: the scan prefix of channel A catches no order key of channel B,
    whatever the order id, exactly when neither channel is a prefix of the
    other. *)
Theorem channels_isolated_iff (OrderPrefix A B : string) :
  (forall id, Bytes.HasPrefix (getOrderStorageKey OrderPrefix B id)
                              (getOrderQueryPrefix OrderPrefix A) = false)
  <-> (Bytes.HasPrefix B A = false /\ Bytes.HasPrefix A B = false).
Proof.
  split.
  - intros Hiso.
    destruct (Bytes.HasPrefix B A) eqn:HBA.
    + destruct (comparable_channels_overlap OrderPrefix A B (or_introl HBA))
        as [i Hi]. rewrite Hiso in Hi. discriminate.
    + destruct (Bytes.HasPrefix A B) eqn:HAB; [| tauto].
      destruct (comparable_channels_overlap OrderPrefix A B (or_intror HAB))
        as [i Hi]. rewrite Hiso in Hi. discriminate.
  - intros [HBA HAB] id. rewrite key_under_prefix.
    destruct (Bytes.HasPrefix (B +:+ id) A) eqn:Hp; [| reflexivity].
    destruct (HasPrefix_app_comparable A B id Hp); congruence.
Qed.

(** ** The stream manager, continued *)

Section StreamMore.

Context `{Externals}.

Import p2p.

(** The state [OpenStream] leaves when the peer is reached. *)
Lemma OpenStream_reachable (peerID : string) (p : P2p) (lg : Log) :
  dialFault (host p) peerID = None ->
  Logger p = Some lg ->
  OpenStream peerID p
  = Done (zeroStream, None)
      {| host := setConns (conns (host p)
                             ++ [{| remote := peerID; wire := ""; closed := false |}])%list
                          (host p);
         streams := <[peer_String peerID :=
                        {| stream := Some (length (conns (host p)));
                           input := Some (length (heap p));
                           output := None |}]> (streams p);
         Logger := Some (lg ++ [{| level := LevelDebug;
                                   format := "Stream opened with %s";
                                   args := [ArgString peerID] |}])%list;
         heap := (heap p ++ [{| wr := Some (length (conns (host p)));
                                buf := ""; werr := None |}])%list;
         sent := sent p |}.
Proof.
  intros Hdial Hlog.
  unfold OpenStream, bind, onHost, onLogger, through, NewStream, logf, ret. simpl.
  rewrite Hdial. simpl. rewrite Hlog. reflexivity.
Qed.

(** A peer that cannot be reached: the dial error comes back with the zero
    [Stream], and neither the map nor the host has changed. *)
Lemma OpenStream_unreachable (peerID : string) (p : P2p) (lg : Log) (e : Error) :
  dialFault (host p) peerID = Some e ->
  Logger p = Some lg ->
  exists p',
    OpenStream peerID p = Done (zeroStream, Some e) p' /\
    streams p' = streams p /\
    host p' = host p /\
    heap p' = heap p /\
    sent p' = sent p.
Proof.
  intros Hdial Hlog.
  unfold OpenStream, bind, onHost, onLogger, through, NewStream, logf, ret. simpl.
  rewrite Hdial. simpl. rewrite Hlog. simpl.
  eexists. split; [reflexivity |]. simpl.
  repeat split.
Qed.

(** X2: opening a stream to a reachable peer and closing it again leaves
    the stream map without an entry for the peer, and the connection that was
    opened is closed with nothing written to it. *)
Theorem OpenStream_then_CloseStream (peerID : string) (p : P2p) (lg : Log) :
  dialFault (host p) peerID = None ->
  Logger p = Some lg ->
  closeFault (host p) (length (conns (host p))) = None ->
  exists p1 p2,
    OpenStream peerID p = Done (zeroStream, None) p1 /\
    CloseStream peerID p1 = Done None p2 /\
    streams p2 = delete (peer_String peerID) (streams p) /\
    conns (host p2)
    = (conns (host p) ++ [{| remote := peerID; wire := ""; closed := true |}])%list.
Proof.
  intros Hdial Hlog Hclose.
  pose proof (OpenStream_reachable peerID p lg Hdial Hlog) as Hopen.
  match type of Hopen with _ = Done _ ?q => set (p1 := q) in * end.
  assert (Hs : streams p1 !! peer_String peerID
               = Some {| stream := Some (length (conns (host p)));
                         input := Some (length (heap p)); output := None |})
    by apply lookup_insert_eq.
  assert (Hc : conns (host p1) !! length (conns (host p))
               = Some {| remote := peerID; wire := ""; closed := false |})
    by (simpl; now apply list_lookup_middle).
  destruct (CloseStream_known_peer peerID p1 _ _ _ Hs eq_refl Hc Hclose)
    as (p2 & Hrun & Hstreams & Hconns2).
  exists p1, p2. split; [exact Hopen |]. split; [exact Hrun |]. split.
  - rewrite Hstreams. apply delete_insert_eq.
  - rewrite Hconns2. simpl.
    rewrite insert_app_r_alt by reflexivity.
    now rewrite Nat.sub_diag.
Qed.

(** X3: a second [OpenStream] to a peer replaces the peer's map entry, so
    that after one [CloseStream] the map has no entry for the peer while the
    connection of the first [OpenStream] is still open. *)
Theorem OpenStream_twice_leaks (peerID : string) (p : P2p) (lg : Log) :
  dialFault (host p) peerID = None ->
  Logger p = Some lg ->
  closeFault (host p) (S (length (conns (host p)))) = None ->
  exists p1 p2 p3,
    OpenStream peerID p = Done (zeroStream, None) p1 /\
    OpenStream peerID p1 = Done (zeroStream, None) p2 /\
    CloseStream peerID p2 = Done None p3 /\
    streams p3 !! peer_String peerID = None /\
    conns (host p3) !! length (conns (host p))
    = Some {| remote := peerID; wire := ""; closed := false |}.
Proof.
  intros Hdial Hlog Hclose.
  pose proof (OpenStream_reachable peerID p lg Hdial Hlog) as Hopen1.
  match type of Hopen1 with _ = Done _ ?q => set (p1 := q) in * end.
  assert (Hopen2 := OpenStream_reachable peerID p1 _ Hdial eq_refl).
  match type of Hopen2 with _ = Done _ ?q => set (p2 := q) in * end.
  assert (Hlen : length (conns (host p1)) = S (length (conns (host p)))).
  { simpl. rewrite length_app. simpl. lia. }
  assert (Hs : streams p2 !! peer_String peerID
               = Some {| stream := Some (length (conns (host p1)));
                         input := Some (length (heap p1)); output := None |})
    by apply lookup_insert_eq.
  assert (Hc : conns (host p2) !! length (conns (host p1))
               = Some {| remote := peerID; wire := ""; closed := false |})
    by (simpl; now apply list_lookup_middle).
  assert (Hcf : closeFault (host p2) (length (conns (host p1))) = None)
    by (rewrite Hlen; exact Hclose).
  destruct (CloseStream_known_peer peerID p2 _ _ _ Hs eq_refl Hc Hcf)
    as (p3 & Hrun & Hstreams & Hconns).
  exists p1, p2, p3. split; [exact Hopen1 |]. split; [exact Hopen2 |].
  split; [exact Hrun |]. split.
  - rewrite Hstreams. apply lookup_delete_eq.
  - rewrite Hconns. rewrite list_lookup_insert_ne by lia.
    simpl. rewrite <- List.app_assoc. now apply list_lookup_middle.
Qed.

(** X4: [CloseStream] cannot be repeated: whenever a call for a peer
    returns, with or without an error, the next call for the same peer
    panics, because the first one has removed the map entry. *)
Theorem CloseStream_twice (peerID : string) (p p1 : P2p) (err : error) :
  CloseStream peerID p = Done err p1 ->
  CloseStream peerID p1 = Crash NilDereference p1.
Proof.
  intros Hrun.
  assert (Hgone : streams p1 !! peer_String peerID = None).
  { unfold CloseStream, bind, get, onHost, through, ret in Hrun.
    destruct (streams p !! peer_String peerID) as [s|]; [| discriminate].
    destruct (stream s) as [c|]; [| discriminate].
    simpl in Hrun.
    destruct (Conn_Close c (host p)) as [e h|why h]; [| discriminate].
    simpl in Hrun. injection Hrun as _ <-. simpl. apply lookup_delete_eq. }
  unfold CloseStream, bind, get. now rewrite Hgone.
Qed.

(** When closing the connection fails, [CloseStream] returns the error and
    has removed the map entry all the same; the connection is as it was. *)
Lemma CloseStream_failure (peerID : string) (p : P2p) (s : Stream) (c : nat)
    (e : Error) :
  streams p !! peer_String peerID = Some s ->
  stream s = Some c ->
  closeFault (host p) c = Some e ->
  exists p',
    CloseStream peerID p = Done (Some e) p' /\
    streams p' = delete (peer_String peerID) (streams p) /\
    conns (host p') = conns (host p).
Proof.
  intros Hs Hc Hfail.
  unfold CloseStream, bind, get, onHost, through, Conn_Close, ret.
  rewrite Hs, Hc. simpl. rewrite Hfail. simpl.
  eexists. split; [reflexivity |]. split; reflexivity.
Qed.

(** X5: a write to a stream whose writer is idle and whose connection is
    open appends exactly the payload to what the connection carries: no
    delimiter and no length is added, and the writer is idle again. *)
Theorem WriteToStream_delivers (s : Stream) (data : string) (p : P2p)
    (a c : nat) (cn : Conn) :
  input s = Some a ->
  heap p !! a = Some {| wr := Some c; buf := ""; werr := None |} ->
  conns (host p) !! c = Some cn ->
  closed cn = false ->
  writeFault (host p) c = None ->
  exists p',
    WriteToStream s data p = Done None p' /\
    conns (host p')
    = <[c := {| remote := remote cn; wire := wire cn +:+ data; closed := false |}]>
        (conns (host p)) /\
    heap p' = heap p /\
    streams p' = streams p.
Proof.
  intros Hin Hw Hc Hopen Hwf.
  pose proof (lookup_lt_Some _ _ _ Hw) as Hwlt.
  unfold WriteToStream, bind, bufio_Write, bufio_Flush, ret. rewrite Hin.
  rewrite Hw. simpl.
  rewrite list_lookup_insert_eq by exact Hwlt. simpl.
  change ("" +:+ data) with data.
  destruct (String.eqb data "") eqn:Hempty.
  - apply String.eqb_eq in Hempty. subst data.
    eexists. split; [reflexivity |]. simpl. repeat split.
    + rewrite app_empty_r. symmetry. apply list_insert_id.
      rewrite Hc. destruct cn; simpl in *; now subst.
    + now apply list_insert_id.
  - unfold Conn_Write. rewrite Hwf, Hc, Hopen. simpl.
    eexists. split; [reflexivity |]. simpl. repeat split.
    rewrite list_insert_insert_eq. now apply list_insert_id.
Qed.

End StreamMore.

Lemma OpenStream_then_CloseStream_witness :
  exists p1 p2,
    p2p.OpenStream "peerA" Fixture.transport = Done (p2p.zeroStream, None) p1 /\
    p2p.CloseStream "peerA" p1 = Done None p2 /\
    p2p.streams p2 = delete (peer_String "peerA") (p2p.streams Fixture.transport) /\
    p2p.conns (p2p.host p2)
    = [{| p2p.remote := "peerA"; p2p.wire := ""; p2p.closed := true |}].
Proof.
  apply (OpenStream_then_CloseStream "peerA" Fixture.transport nil); reflexivity.
Defined.

Lemma OpenStream_twice_leaks_witness :
  exists p1 p2 p3,
    p2p.OpenStream "peerA" Fixture.transport = Done (p2p.zeroStream, None) p1 /\
    p2p.OpenStream "peerA" p1 = Done (p2p.zeroStream, None) p2 /\
    p2p.CloseStream "peerA" p2 = Done None p3 /\
    p2p.streams p3 !! peer_String "peerA" = None /\
    p2p.conns (p2p.host p3) !! 0%nat
    = Some {| p2p.remote := "peerA"; p2p.wire := ""; p2p.closed := false |}.
Proof.
  apply (OpenStream_twice_leaks "peerA" Fixture.transport nil); reflexivity.
Defined.

Lemma CloseStream_twice_witness :
  p2p.CloseStream "peerA" (final (p2p.CloseStream "peerA" Fixture.dialed))
  = Crash NilDereference (final (p2p.CloseStream "peerA" Fixture.dialed)).
Proof.
  apply (CloseStream_twice "peerA" Fixture.dialed
           (final (p2p.CloseStream "peerA" Fixture.dialed)) None).
  vm_compute. reflexivity.
Defined.

Lemma WriteToStream_delivers_witness :
  exists p',
    p2p.WriteToStream
      {| p2p.stream := Some 0%nat; p2p.input := Some 0%nat; p2p.output := None |}
      "hello" Fixture.dialed = Done None p' /\
    p2p.conns (p2p.host p')
    = <[0%nat := {| p2p.remote := "peerA"; p2p.wire := "" +:+ "hello";
                    p2p.closed := false |}]>
        (p2p.conns (p2p.host Fixture.dialed)) /\
    p2p.heap p' = p2p.heap Fixture.dialed /\
    p2p.streams p' = p2p.streams Fixture.dialed.
Proof.
  apply (WriteToStream_delivers
           {| p2p.stream := Some 0%nat; p2p.input := Some 0%nat; p2p.output := None |}
           "hello" Fixture.dialed 0%nat 0%nat
           {| p2p.remote := "peerA"; p2p.wire := ""; p2p.closed := false |});
    reflexivity.
Defined.

(** ** The inbound side of a stream *)

Section InboundFacts.

Import p2p.

(** A cut splits the input into a non-empty first frame and the rest. *)
Lemma cutAfter_Some (d : ascii) (s line rest : string) :
  cutAfter d s = Some (line, rest) ->
  s = line +:+ rest /\ line <> "" /\
  String.length s = (String.length line + String.length rest)%nat /\
  frames d s = line :: frames d rest.
Proof.
  revert line rest. induction s as [|c s IH]; intros line rest Hcut; [discriminate |].
  simpl in Hcut. simpl frames.
  destruct (Ascii.eqb c d).
  - injection Hcut as <- <-. repeat split. discriminate.
  - destruct (cutAfter d s) as [[a b]|]; [| discriminate].
    injection Hcut as <- <-.
    destruct (IH a b eq_refl) as (-> & _ & Hlen & Hfr).
    rewrite Hfr. repeat split.
    + discriminate.
    + simpl. now rewrite Hlen.
Qed.

Lemma cutAfter_None (d : ascii) (s : string) :
  cutAfter d s = None <-> frames d s = nil.
Proof.
  induction s as [|c s IH]; simpl; [tauto |].
  destruct (Ascii.eqb c d); [split; discriminate |].
  destruct (cutAfter d s) as [[a b]|] eqn:Hcut.
  - destruct (cutAfter_Some d s a b Hcut) as (_ & _ & _ & ->).
    split; discriminate.
  - destruct IH as [IH _]. rewrite (IH eq_refl). tauto.
Qed.

Lemma empty_eqb_false (line : string) : line <> "" -> String.eqb line "" = false.
Proof. intros Hne. apply String.eqb_neq. exact Hne. Qed.

Section Loop.

Context {R : Type}.

Variable stream : Stream.

Lemma receiveLoop_never_nil (rcv : option (string -> M R error)) (fuel : nat) :
  forall i : Inbound R,
    (String.length (pending (reader i)) < fuel)%nat ->
    exists o,
      receiveLoop fuel stream rcv i = Some o /\
      (forall i', o <> Done None i') /\
      transport (final o) = transport i.
Proof.
  induction fuel as [|fuel IH]; intros i Hlen; [lia |].
  simpl. unfold onReader, through, bufio_ReadBytes. simpl.
  destruct (cutAfter newline (pending (reader i))) as [[line rest]|] eqn:Hcut.
  - destruct (cutAfter_Some _ _ _ _ Hcut) as (_ & Hne & Hl & _).
    destruct rcv as [f|].
    + unfold onReceiver, through. simpl.
      destruct (f line (receiver i)) as [[e|] r2|why r2].
      * simpl. eexists. split; [reflexivity |]. split; [discriminate | reflexivity].
      * simpl. rewrite (empty_eqb_false line Hne).
        destruct (IH {| reader := {| pending := rest;
                                      ending := ending (reader i) |};
                        receiver := r2; transport := transport i |})
          as (o & Hrun & Hnil & Ht).
        { simpl. destruct line; [congruence | simpl in Hl; lia]. }
        exists o. repeat split; assumption.
      * eexists. split; [reflexivity |]. split; [discriminate | reflexivity].
    + eexists. split; [reflexivity |]. split; [discriminate | reflexivity].
  - eexists. split; [reflexivity |]. split; [discriminate | reflexivity].
Qed.

(** X6: on any input, with any receiver, [receiveStream] returns, and
    never with nil: a frame that was read holds at least its delimiter, so
    the test for an empty frame fails every time and the loop is only left
    with an error or a panic of the receiver.  In particular the loop never
    closes the stream: the transport is as it was. *)
Theorem receiveStream_never_nil (rcv : option (string -> M R error))
    (i : Inbound R) :
  exists o,
    receiveStream stream rcv i = Some o /\
    (forall i', o <> Done None i') /\
    transport (final o) = transport i.
Proof. apply receiveLoop_never_nil. lia. Qed.

(** X7: when the input ends before a delimiter, the receiver is not
    called at all: the bytes read are dropped and the read error is
    returned. *)
Theorem receiveStream_no_frame (rcv : option (string -> M R error))
    (i : Inbound R) :
  frames newline (pending (reader i)) = nil ->
  receiveStream stream rcv i
  = Some (Done (errors_E "Reading bytes from stream" (Some (ending (reader i))))
            {| reader := {| pending := ""; ending := ending (reader i) |};
               receiver := receiver i;
               transport := transport i |}).
Proof.
  intros Hnone. apply cutAfter_None in Hnone.
  unfold receiveStream. simpl.
  unfold onReader, through, bufio_ReadBytes. simpl. now rewrite Hnone.
Qed.

(** Without a receiver the loop ends after the first frame. *)
Lemma receiveStream_no_receiver (i : Inbound R) (line rest : string) :
  cutAfter newline (pending (reader i)) = Some (line, rest) ->
  receiveStream stream None i
  = Some (Done (errors_E "No receiver defined for stream.receiveStream" None)
            {| reader := {| pending := rest; ending := ending (reader i) |};
               receiver := receiver i;
               transport := transport i |}).
Proof.
  intros Hcut. unfold receiveStream. simpl.
  unfold onReader, through, bufio_ReadBytes. simpl. now rewrite Hcut.
Qed.

(** An error of the receiver ends the loop; the rest of the input stays
    unread. *)
Lemma receiveStream_receiver_error (f : string -> M R error) (i : Inbound R)
    (line rest : string) (e : Error) (r : R) :
  cutAfter newline (pending (reader i)) = Some (line, rest) ->
  f line (receiver i) = Done (Some e) r ->
  receiveStream stream (Some f) i
  = Some (Done (errors_E "Passing data from stream to receiver" (Some e))
            {| reader := {| pending := rest; ending := ending (reader i) |};
               receiver := r;
               transport := transport i |}).
Proof.
  intros Hcut Hf. unfold receiveStream. simpl.
  unfold onReader, onReceiver, through, bufio_ReadBytes. simpl.
  rewrite Hcut. simpl. now rewrite Hf.
Qed.
End Loop.

Lemma receiveLoop_recorder (stream : Stream) (fuel : nat) :
  forall i : Inbound (list string),
    (String.length (pending (reader i)) < fuel)%nat ->
    receiveLoop fuel stream (Some recorder) i
    = Some (Done (errors_E "Reading bytes from stream" (Some (ending (reader i))))
              {| reader := {| pending := ""; ending := ending (reader i) |};
                 receiver := (receiver i ++ frames newline (pending (reader i)))%list;
                 transport := transport i |}).
Proof.
  induction fuel as [|fuel IH]; intros i Hlen; [lia |].
  simpl. unfold onReader, through, bufio_ReadBytes. simpl.
  destruct (cutAfter newline (pending (reader i))) as [[line rest]|] eqn:Hcut.
  - destruct (cutAfter_Some _ _ _ _ Hcut) as (_ & Hne & Hl & Hfr).
    unfold onReceiver, through, recorder. simpl.
    rewrite (empty_eqb_false line Hne).
    rewrite IH by (simpl; destruct line; [congruence | simpl in Hl; lia]).
    simpl. rewrite Hfr. now rewrite <- List.app_assoc.
  - apply cutAfter_None in Hcut. rewrite Hcut. now rewrite List.app_nil_r.
Qed.

Lemma frames_end_in_newline (d : ascii) (s : string) :
  Forall (fun f => exists body, f = body +:+ String d "") (frames d s).
Proof.
  induction s as [|c s IH]; simpl; [constructor |].
  destruct (Ascii.eqb c d) eqn:Hc.
  - apply Ascii.eqb_eq in Hc. subst c. constructor; [now exists "" | exact IH].
  - destruct (frames d s) as [|f fs]; [constructor |].
    inversion IH as [|? ? [body ->] Hfs]; subst.
    constructor; [now exists (String c body) | exact Hfs].
Qed.

(** X8: a receiver that accepts everything is handed the complete frames
    of the input, in order and each with its trailing delimiter; bytes after
    the last delimiter are dropped, and the loop ends with the read error. *)
Theorem receiveStream_delivers_frames (stream : Stream) (i : Inbound (list string)) :
  exists i',
    receiveStream stream (Some recorder) i
    = Some (Done (errors_E "Reading bytes from stream" (Some (ending (reader i)))) i') /\
    receiver i' = (receiver i ++ frames newline (pending (reader i)))%list /\
    Forall (fun f => exists body, f = body +:+ String newline "")
           (frames newline (pending (reader i))) /\
    transport i' = transport i.
Proof.
  eexists. split.
  - unfold receiveStream. apply receiveLoop_recorder. lia.
  - simpl. repeat split. apply frames_end_in_newline.
Qed.
End InboundFacts.

Lemma receiveStream_no_frame_witness :
  p2p.receiveStream p2p.zeroStream (Some p2p.recorder) Fixture.trickle
  = Some (Done (errors_E "Reading bytes from stream" (Some (Failure "EOF")))
            {| p2p.reader := {| p2p.pending := ""; p2p.ending := Failure "EOF" |};
               p2p.receiver := nil;
               p2p.transport := Fixture.transport |}).
Proof.
  apply (receiveStream_no_frame p2p.zeroStream (Some p2p.recorder) Fixture.trickle).
  reflexivity.
Defined.

(** ** The order replication service, continued *)

Section ServiceMore.

Context `{Externals}.

Import service.

(** The steps of [Receive] up to the [switch]. *)
Ltac receive_enter Hdec Hlg Hst :=
  unfold Receive; rewrite Hdec; simpl;
  erewrite bind_Done by (apply onLogger_logf; exact Hlg);
  unfold get at 1; unfold bind at 1; simpl; rewrite Hst.

Lemma orderKey_inj_id (c i j : string) : orderKey c i = orderKey c j -> i = j.
Proof.
  unfold orderKey. rewrite !getOrderStorageKey_app. intros Hk.
  apply app_inv_head in Hk. now apply app_inv_head in Hk.
Qed.

Lemma OrderPrefix_prefix_of_key (c i : string) :
  Bytes.HasPrefix (orderKey c i) OrderPrefix = true.
Proof.
  unfold orderKey. rewrite getOrderStorageKey_app.
  apply HasPrefix_spec. now exists (c +:+ i).
Qed.

(** *** CREATE and DELETE messages *)

Lemma Receive_create_run
    (buf from : string) (s : OrderService) (msg : pb.WireMessage)
    (order : pb.Order) (lg : Log) (st : db.Storage) :
  Unmarshal_WireMessage buf = (msg, None) ->
  pb.Operation msg = pb.Operation_CREATE ->
  Unmarshal_Order (pb.Data msg) = (order, None) ->
  Logger s = Some lg ->
  Storage s = Some st ->
  db.fault st db.OpPut = None ->
  exists s' st',
    Receive buf from s = Done None s' /\
    Storage s' = Some st' /\
    db.data st'
    = <[orderKey (pb.ChannelID msg) (pb.Id order) := pb.Data msg]> (db.data st) /\
    db.fault st' = db.fault st /\
    P2p s' = P2p s /\
    Logger s' <> None.
Proof.
  intros Hdec Hop Hord Hlg Hst Hput.
  receive_enter Hdec Hlg Hst. rewrite Hop. simpl. rewrite Hord. simpl.
  erewrite bind_Done
    by (eapply onStorage_Done;
        [simpl; exact Hst | unfold db.Put; rewrite Hput; reflexivity]).
  simpl. eexists. eexists. split; [reflexivity |]. simpl.
  repeat split. discriminate.
Qed.

Lemma Receive_delete_run
    (buf from : string) (s : OrderService) (msg : pb.WireMessage)
    (order : pb.Order) (lg : Log) (st : db.Storage) :
  Unmarshal_WireMessage buf = (msg, None) ->
  pb.Operation msg = pb.Operation_DELETE ->
  Unmarshal_Order (pb.Data msg) = (order, None) ->
  Logger s = Some lg ->
  Storage s = Some st ->
  db.fault st db.OpDelete = None ->
  exists s' st',
    Receive buf from s = Done None s' /\
    Storage s' = Some st' /\
    db.data st' = delete (orderKey (pb.ChannelID msg) (pb.Id order)) (db.data st) /\
    db.fault st' = db.fault st /\
    P2p s' = P2p s /\
    Logger s' <> None.
Proof.
  intros Hdec Hop Hord Hlg Hst Hdel.
  receive_enter Hdec Hlg Hst. rewrite Hop. simpl. rewrite Hord. simpl.
  erewrite bind_Done
    by (eapply onStorage_Done;
        [simpl; exact Hst | unfold db.Delete; rewrite Hdel; reflexivity]).
  simpl. eexists. eexists. split; [reflexivity |]. simpl.
  repeat split. discriminate.
Qed.

(** A failure of the store's [Delete] comes back from [Receive], under the
    label of the CREATE case. *)
Lemma Receive_delete_failure
    (buf from : string) (s : OrderService) (msg : pb.WireMessage)
    (order : pb.Order) (lg : Log) (st : db.Storage) (e : Error) :
  Unmarshal_WireMessage buf = (msg, None) ->
  pb.Operation msg = pb.Operation_DELETE ->
  Unmarshal_Order (pb.Data msg) = (order, None) ->
  Logger s = Some lg ->
  Storage s = Some st ->
  db.fault st db.OpDelete = Some e ->
  exists s',
    Receive buf from s = Done (errors_E "Put order" (Some e)) s' /\
    Storage s' = Some st.
Proof.
  intros Hdec Hop Hord Hlg Hst Hdel.
  receive_enter Hdec Hlg Hst. rewrite Hop. simpl. rewrite Hord. simpl.
  erewrite bind_Done
    by (eapply onStorage_Done;
        [simpl; exact Hst | unfold db.Delete; rewrite Hdel; reflexivity]).
  simpl. eexists. split; reflexivity.
Qed.

Lemma GetOrder_run (in_ : pb.OrderSpecificRequest) (s : OrderService)
    (st : db.Storage) :
  Storage s = Some st ->
  db.fault st db.OpGet = None ->
  GetOrder in_ s
  = Done (match db.data st !! orderKey (pb.osr_ChannelID in_) (pb.osr_OrderID in_) with
          | Some v => (Some (fst (Unmarshal_Order v)), None)
          | None => (None, errors_E "Get order" (Some db.notFound))
          end) s.
Proof.
  intros Hst Hget.
  unfold GetOrder, bind, onStorage, through, db.Get, ret.
  rewrite Hst, Hget.
  destruct (db.data st !! _); simpl;
    destruct s; simpl in *; subst; reflexivity.
Qed.

(** X9: a CREATE message whose payload decodes is applied by storing the
    payload bytes, as received, under the key of the message's channel and
    the decoded order's id; [Receive] returns nil and leaves the transport
    alone. *)
Theorem Receive_create_stores
    (buf from : string) (s : OrderService) (msg : pb.WireMessage)
    (order : pb.Order) (lg : Log) (st : db.Storage) :
  Unmarshal_WireMessage buf = (msg, None) ->
  pb.Operation msg = pb.Operation_CREATE ->
  Unmarshal_Order (pb.Data msg) = (order, None) ->
  Logger s = Some lg ->
  Storage s = Some st ->
  db.fault st db.OpPut = None ->
  exists s' st',
    Receive buf from s = Done None s' /\
    Storage s' = Some st' /\
    db.data st'
    = <[orderKey (pb.ChannelID msg) (pb.Id order) := pb.Data msg]> (db.data st) /\
    P2p s' = P2p s.
Proof.
  intros Hdec Hop Hord Hlg Hst Hput.
  destruct (Receive_create_run buf from s msg order lg st Hdec Hop Hord Hlg Hst Hput)
    as (s' & st' & Hrun & Hst' & Hdata & _ & Hp & _).
  exists s', st'. repeat split; assumption.
Qed.

(** X10: applying the same CREATE message a second time changes nothing
    in the store: a replayed or duplicated broadcast is harmless. *)
Theorem Receive_create_idempotent
    (buf from : string) (s : OrderService) (msg : pb.WireMessage)
    (order : pb.Order) (lg : Log) (st : db.Storage) :
  Unmarshal_WireMessage buf = (msg, None) ->
  pb.Operation msg = pb.Operation_CREATE ->
  Unmarshal_Order (pb.Data msg) = (order, None) ->
  Logger s = Some lg ->
  Storage s = Some st ->
  db.fault st db.OpPut = None ->
  exists s1 s2 st1 st2,
    Receive buf from s = Done None s1 /\
    Receive buf from s1 = Done None s2 /\
    Storage s1 = Some st1 /\
    Storage s2 = Some st2 /\
    db.data st2 = db.data st1.
Proof.
  intros Hdec Hop Hord Hlg Hst Hput.
  destruct (Receive_create_run buf from s msg order lg st
              Hdec Hop Hord Hlg Hst Hput)
    as (s1 & st1 & Hrun1 & Hst1 & Hdata1 & Hfault1 & _ & Hlg1).
  destruct (Logger s1) as [lg1|] eqn:Hlg1'; [| now destruct Hlg1].
  assert (Hput1 : db.fault st1 db.OpPut = None) by now rewrite Hfault1.
  destruct (Receive_create_run buf from s1 msg order lg1 st1
              Hdec Hop Hord Hlg1' Hst1 Hput1)
    as (s2 & st2 & Hrun2 & Hst2 & Hdata2 & _).
  exists s1, s2, st1, st2. repeat split; try assumption.
  rewrite Hdata2, Hdata1. apply insert_insert_eq.
Qed.

(** X11: a CREATE or DELETE message whose payload does not decode as an
    order is refused with the decode error, and the store is as it was. *)
Theorem Receive_bad_payload
    (buf from : string) (s : OrderService) (msg : pb.WireMessage)
    (lg : Log) (st : db.Storage) :
  Unmarshal_WireMessage buf = (msg, None) ->
  pb.Operation msg = pb.Operation_CREATE \/ pb.Operation msg = pb.Operation_DELETE ->
  IsEmpty (snd (Unmarshal_Order (pb.Data msg))) = false ->
  Logger s = Some lg ->
  Storage s = Some st ->
  exists s',
    Receive buf from s
    = Done (errors_E "Unmarshal order proto in Receive"
              (snd (Unmarshal_Order (pb.Data msg)))) s' /\
    Storage s' = Some st /\
    P2p s' = P2p s.
Proof.
  intros Hdec Hop Hbad Hlg Hst.
  receive_enter Hdec Hlg Hst.
  destruct (Unmarshal_Order (pb.Data msg)) as [order err]. simpl in Hbad.
  destruct Hop as [Hop | Hop]; rewrite Hop; simpl; rewrite Hbad; simpl;
    (eexists; split; [reflexivity |]; split; [exact Hst | reflexivity]).
Qed.

(** X12: a DELETE message for an order this node does not hold is
    processed without error and leaves the stored entries as they were. *)
Theorem Receive_delete_unknown
    (buf from : string) (s : OrderService) (msg : pb.WireMessage)
    (order : pb.Order) (lg : Log) (st : db.Storage) :
  Unmarshal_WireMessage buf = (msg, None) ->
  pb.Operation msg = pb.Operation_DELETE ->
  Unmarshal_Order (pb.Data msg) = (order, None) ->
  Logger s = Some lg ->
  Storage s = Some st ->
  db.fault st db.OpDelete = None ->
  db.data st !! orderKey (pb.ChannelID msg) (pb.Id order) = None ->
  exists s' st',
    Receive buf from s = Done None s' /\
    Storage s' = Some st' /\
    db.data st' = db.data st /\
    P2p s' = P2p s.
Proof.
  intros Hdec Hop Hord Hlg Hst Hdel Hnone.
  destruct (Receive_delete_run buf from s msg order lg st Hdec Hop Hord Hlg Hst Hdel)
    as (s' & st' & Hrun & Hst' & Hdata & _ & Hp & _).
  exists s', st'. repeat split; try assumption.
  rewrite Hdata. now apply delete_id.
Qed.

(** X13: a CREATE message followed by the DELETE message with the same
    channel and payload stores the order and then removes it: if the key was
    free before, the stored entries are back to what they were. *)
Theorem Receive_create_then_delete
    (bufC bufD from from' : string) (s : OrderService) (channel payload : string)
    (order : pb.Order) (lg : Log) (st : db.Storage) :
  Unmarshal_WireMessage bufC
  = ({| pb.ChannelID := channel; pb.Operation := pb.Operation_CREATE;
        pb.Data := payload |}, None) ->
  Unmarshal_WireMessage bufD
  = ({| pb.ChannelID := channel; pb.Operation := pb.Operation_DELETE;
        pb.Data := payload |}, None) ->
  Unmarshal_Order payload = (order, None) ->
  Logger s = Some lg ->
  Storage s = Some st ->
  db.healthy st ->
  db.data st !! orderKey channel (pb.Id order) = None ->
  exists s1 s2 st1 st2,
    Receive bufC from s = Done None s1 /\
    Receive bufD from' s1 = Done None s2 /\
    Storage s1 = Some st1 /\
    db.data st1 !! orderKey channel (pb.Id order) = Some payload /\
    Storage s2 = Some st2 /\
    db.data st2 = db.data st.
Proof.
  intros HdecC HdecD Hord Hlg Hst Hok Hnone.
  destruct (Receive_create_run bufC from s _ order lg st
              HdecC eq_refl Hord Hlg Hst (Hok db.OpPut))
    as (s1 & st1 & Hrun1 & Hst1 & Hdata1 & Hfault1 & _ & Hlg1).
  destruct (Logger s1) as [lg1|] eqn:Hlg1'; [| now destruct Hlg1].
  assert (Hdel1 : db.fault st1 db.OpDelete = None)
    by (rewrite Hfault1; apply Hok).
  destruct (Receive_delete_run bufD from' s1 _ order lg1 st1
              HdecD eq_refl Hord Hlg1' Hst1 Hdel1)
    as (s2 & st2 & Hrun2 & Hst2 & Hdata2 & _).
  simpl in Hdata1, Hdata2.
  exists s1, s2, st1, st2. repeat split; try assumption.
  - rewrite Hdata1. apply lookup_insert_eq.
  - rewrite Hdata2, Hdata1. now apply delete_insert_id.
Qed.

(** X14: after a CREATE message was applied, [GetOrder] for the message's
    channel and the order's id returns the order the payload decodes to. *)
Theorem Receive_create_then_GetOrder
    (buf from : string) (s : OrderService) (msg : pb.WireMessage)
    (order : pb.Order) (lg : Log) (st : db.Storage) :
  Unmarshal_WireMessage buf = (msg, None) ->
  pb.Operation msg = pb.Operation_CREATE ->
  Unmarshal_Order (pb.Data msg) = (order, None) ->
  Logger s = Some lg ->
  Storage s = Some st ->
  db.fault st db.OpPut = None ->
  db.fault st db.OpGet = None ->
  exists s',
    Receive buf from s = Done None s' /\
    GetOrder {| pb.osr_OrderID := pb.Id order; pb.osr_ChannelID := pb.ChannelID msg |} s'
    = Done (Some order, None) s'.
Proof.
  intros Hdec Hop Hord Hlg Hst Hput Hget.
  destruct (Receive_create_run buf from s msg order lg st
              Hdec Hop Hord Hlg Hst Hput)
    as (s' & st' & Hrun & Hst' & Hdata & Hfault & _).
  exists s'. split; [exact Hrun |].
  rewrite (GetOrder_run _ s' st' Hst') by (rewrite Hfault; exact Hget).
  simpl. rewrite Hdata, lookup_insert_eq. now rewrite Hord.
Qed.

(** *** SYNC_RECEIVE messages *)

Lemma applied_cons (channelID : string) (o : pb.Order) (orders : list pb.Order)
    (d : gmap string string) :
  applied channelID (o :: orders) d
  = applied channelID orders
      (<[orderKey channelID (pb.Id o) := fst (Marshal_Order o)]> d).
Proof. reflexivity. Qed.

Lemma applied_other (channelID : string) (orders : list pb.Order)
    (d : gmap string string) (k : string) :
  (forall o, In o orders -> orderKey channelID (pb.Id o) <> k) ->
  applied channelID orders d !! k = d !! k.
Proof.
  revert d. induction orders as [|o orders IH]; intros d Hk; [reflexivity |].
  rewrite applied_cons.
  rewrite IH by (intros o' Ho'; apply Hk; now right).
  apply lookup_insert_ne. apply Hk. now left.
Qed.

Lemma applied_own (channelID : string) (orders : list pb.Order)
    (d : gmap string string) (o : pb.Order) :
  NoDup (map pb.Id orders) ->
  In o orders ->
  applied channelID orders d !! orderKey channelID (pb.Id o)
  = Some (fst (Marshal_Order o)).
Proof.
  revert d. induction orders as [|x orders IH]; intros d Hnd Hin; [destruct Hin |].
  rewrite applied_cons.
  simpl in Hnd. apply NoDup_cons in Hnd as [Hx Hnd].
  destruct Hin as [-> | Hin].
  - rewrite applied_other.
    + apply lookup_insert_eq.
    + intros o' Ho' Hkey. apply orderKey_inj_id in Hkey.
      apply Hx. rewrite <- Hkey. apply list_elem_of_In. now apply in_map.
  - now apply IH.
Qed.

(** The loop of the SYNC_RECEIVE case: it runs to its end whatever the
    store answers. *)
Lemma syncReceive_loop (channelID : string) (orders : list pb.Order)
    (s : OrderService) (st : db.Storage) :
  Storage s = Some st ->
  exists s' st',
    forRange orders (fun order =>
      let (orderBytes, err) := Marshal_Order order in
      let err := if negb (IsEmpty err)
                 then errors_E "Marshal order from received orderList" err
                 else err in
      err <- onStorage (db.Put (orderKey channelID (pb.Id order)) orderBytes) ;;
      let err := if negb (IsEmpty err) then errors_E "Put order" err else err in
      ret tt) s = Done tt s' /\
    Storage s' = Some st' /\
    db.fault st' = db.fault st /\
    db.data st' = match db.fault st db.OpPut with
                  | None => applied channelID orders (db.data st)
                  | Some _ => db.data st
                  end /\
    P2p s' = P2p s /\ Logger s' = Logger s.
Proof.
  revert s st. induction orders as [|o orders IH]; intros s st Hst.
  - exists s, st. simpl. unfold ret.
    destruct (db.fault st db.OpPut); repeat split; assumption.
  - simpl. destruct (Marshal_Order o) as [orderBytes e0] eqn:Hm.
    unfold bind at 1. unfold bind at 1.
    unfold onStorage at 1, through at 1. rewrite Hst.
    unfold db.Put at 1.
    destruct (db.fault st db.OpPut) as [e|] eqn:Hput; simpl.
    + destruct (IH (setStorage st s) st eq_refl)
        as (s' & st' & Hrun & Hst' & Hf & Hd & Hp & Hl).
      rewrite Hput in Hd.
      exists s', st'. repeat split; assumption.
    + destruct (IH (setStorage (db.setData (<[orderKey channelID (pb.Id o) := orderBytes]> (db.data st)) st) s)
                  _ eq_refl)
        as (s' & st' & Hrun & Hst' & Hf & Hd & Hp & Hl).
      simpl in Hd, Hf. rewrite Hput in Hd.
      exists s', st'. repeat split; assumption.
Qed.

Lemma Receive_sync_receive_run
    (buf from : string) (s : OrderService) (msg : pb.WireMessage)
    (orderList : pb.OrderList) (lg : Log) (st : db.Storage) :
  Unmarshal_WireMessage buf = (msg, None) ->
  pb.Operation msg = pb.Operation_SYNC_RECEIVE ->
  Unmarshal_OrderList (pb.Data msg) = (orderList, None) ->
  Logger s = Some lg ->
  Storage s = Some st ->
  exists s' st',
    Receive buf from s = Done None s' /\
    Storage s' = Some st' /\
    db.data st' = match db.fault st db.OpPut with
                  | None => applied (pb.ChannelID msg) (pb.Orders orderList) (db.data st)
                  | Some _ => db.data st
                  end /\
    P2p s' = P2p s.
Proof.
  intros Hdec Hop Hlist Hlg Hst.
  receive_enter Hdec Hlg Hst. rewrite Hop. simpl.
  unfold syncReceive. rewrite Hlist. simpl.
  erewrite bind_Done by (apply onLogger_logf; reflexivity).
  match goal with
  | |- context [bind (forRange _ _) _ ?s0] =>
      assert (Hs0 : Storage s0 = Some st) by (simpl; exact Hst);
      destruct (syncReceive_loop (pb.ChannelID msg) (pb.Orders orderList) s0 st Hs0)
        as (s' & st' & Hrun & Hst' & _ & Hd & Hp & _)
  end.
  erewrite bind_Done by exact Hrun.
  exists s', st'. split; [reflexivity |]. repeat split; assumption.
Qed.

(** X15: a SYNC_RECEIVE message whose list decodes is answered with nil
    even when the store refuses every write: the errors of the loop are
    dropped, and nothing was stored. *)
Theorem Receive_sync_receive_swallows
    (buf from : string) (s : OrderService) (msg : pb.WireMessage)
    (orderList : pb.OrderList) (lg : Log) (st : db.Storage) (e : Error) :
  Unmarshal_WireMessage buf = (msg, None) ->
  pb.Operation msg = pb.Operation_SYNC_RECEIVE ->
  Unmarshal_OrderList (pb.Data msg) = (orderList, None) ->
  Logger s = Some lg ->
  Storage s = Some st ->
  db.fault st db.OpPut = Some e ->
  exists s' st',
    Receive buf from s = Done None s' /\
    Storage s' = Some st' /\
    db.data st' = db.data st.
Proof.
  intros Hdec Hop Hlist Hlg Hst Hput.
  destruct (Receive_sync_receive_run buf from s msg orderList lg st
              Hdec Hop Hlist Hlg Hst)
    as (s' & st' & Hrun & Hst' & Hd & _).
  rewrite Hput in Hd. exists s', st'. repeat split; assumption.
Qed.

(** X16: a SYNC_RECEIVE message whose orders have pairwise different ids
    leaves, for every order of the list, that order's re-encoding under the
    key of the message's channel and the order's id; every other key holds
    what it held before. *)
Theorem Receive_sync_receive_stores_all
    (buf from : string) (s : OrderService) (msg : pb.WireMessage)
    (orderList : pb.OrderList) (lg : Log) (st : db.Storage) :
  Unmarshal_WireMessage buf = (msg, None) ->
  pb.Operation msg = pb.Operation_SYNC_RECEIVE ->
  Unmarshal_OrderList (pb.Data msg) = (orderList, None) ->
  Logger s = Some lg ->
  Storage s = Some st ->
  db.fault st db.OpPut = None ->
  NoDup (map pb.Id (pb.Orders orderList)) ->
  exists s' st',
    Receive buf from s = Done None s' /\
    Storage s' = Some st' /\
    (forall o, In o (pb.Orders orderList) ->
       db.data st' !! orderKey (pb.ChannelID msg) (pb.Id o)
       = Some (fst (Marshal_Order o))) /\
    (forall k,
       (forall o, In o (pb.Orders orderList) ->
          orderKey (pb.ChannelID msg) (pb.Id o) <> k) ->
       db.data st' !! k = db.data st !! k).
Proof.
  intros Hdec Hop Hlist Hlg Hst Hput Hnd.
  destruct (Receive_sync_receive_run buf from s msg orderList lg st
              Hdec Hop Hlist Hlg Hst)
    as (s' & st' & Hrun & Hst' & Hd & _).
  rewrite Hput in Hd. exists s', st'.
  split; [exact Hrun |]. split; [exact Hst' |]. split.
  - intros o Ho. rewrite Hd. now apply applied_own.
  - intros k Hk. rewrite Hd. now apply applied_other.
Qed.

(** *** What [Receive] leaves alone *)

(** X17: a message whose operation is none of the four constants is
    dropped: [Receive] returns nil and neither store nor transport
    changes. *)
Theorem Receive_unknown_operation
    (buf from : string) (s : OrderService) (msg : pb.WireMessage)
    (lg : Log) (st : db.Storage) :
  Unmarshal_WireMessage buf = (msg, None) ->
  (pb.Operation msg < 0 \/ 3 < pb.Operation msg) ->
  Logger s = Some lg ->
  Storage s = Some st ->
  exists s',
    Receive buf from s = Done None s' /\
    Storage s' = Some st /\
    P2p s' = P2p s.
Proof.
  intros Hdec Hop Hlg Hst.
  receive_enter Hdec Hlg Hst.
  unfold pb.Operation_CREATE, pb.Operation_DELETE, pb.Operation_SYNC_REQUEST,
    pb.Operation_SYNC_RECEIVE.
  destruct (Z.eqb_spec (pb.Operation msg) 0); [lia |].
  destruct (Z.eqb_spec (pb.Operation msg) 1); [lia |].
  destruct (Z.eqb_spec (pb.Operation msg) 2); [lia |].
  destruct (Z.eqb_spec (pb.Operation msg) 3); [lia |].
  eexists. split; [reflexivity |]. split; [exact Hst | reflexivity].
Qed.

(** X18: [Receive] never touches the sync latch: whatever the buffer and
    however the call ends, [syncState] and the mutex are as before; applying
    a SYNC_RECEIVE does not mark the node up to date. *)
Theorem Receive_keeps_latch (buf from : string) (s : OrderService) :
  syncState (final (Receive buf from s)) = syncState s /\
  syncLock (final (Receive buf from s)) = syncLock s.
Proof.
  assert (Hk : keeps (fun s => (syncState s, syncLock s)) (Receive buf from)).
  { unfold Receive, syncRequest, syncReceive. repeat keeps_step. }
  specialize (Hk s). simpl in Hk. now inversion Hk.
Qed.

(** X19: unless the message is a SYNC_REQUEST, [Receive] does not use the
    transport: however the call ends, nothing was sent and no stream was
    opened or closed. *)
Theorem Receive_keeps_transport (buf from : string) (s : OrderService) :
  pb.Operation (fst (Unmarshal_WireMessage buf)) <> pb.Operation_SYNC_REQUEST ->
  P2p (final (Receive buf from s)) = P2p s.
Proof.
  intros Hop.
  assert (Hk : keeps P2p (Receive buf from)).
  { unfold Receive.
    destruct (Unmarshal_WireMessage buf) as [msg err]. simpl in Hop.
    apply Z.eqb_neq in Hop. rewrite Hop.
    unfold syncReceive. repeat keeps_step. }
  exact (Hk s).
Qed.

(** *** SYNC_REQUEST to a peer that cannot be reached *)

Ltac sync_request_start st msg Hdec Hop Hlg Hst Hscan Hml Hmw :=
  unfold Receive; rewrite Hdec; simpl; rewrite Hop; simpl;
  erewrite bind_Done by (apply onLogger_logf; eassumption);
  unfold get at 1; unfold bind at 1; simpl; rewrite Hst;
  unfold syncRequest;
  erewrite bind_Done
    by (eapply onStorage_Done;
        [simpl; eassumption
        | unfold db.GetAllWithPrefix; rewrite Hscan; reflexivity]);
  simpl;
  fold (storedOrders st (pb.ChannelID msg));
  unfold syncResponse in Hmw;
  destruct (Marshal_OrderList (storedOrders st _)) as [marshaledOrderList ?e];
  simpl in Hml, Hmw; subst; simpl;
  destruct (Marshal_WireMessage _) as [marshaledData ?e];
  simpl in Hmw; subst; simpl.

(** X20: when the requesting peer cannot be reached, a SYNC_REQUEST ends
    with the dial error under the label "Open a sync request stream"; the
    store, the stream map and the host are as they were. *)
Theorem Receive_sync_request_unreachable
    (buf from : string) (s : OrderService) (msg : pb.WireMessage)
    (lg : Log) (st : db.Storage) (p : p2p.P2p) (plg : Log) (e : Error) :
  Unmarshal_WireMessage buf = (msg, None) ->
  pb.Operation msg = pb.Operation_SYNC_REQUEST ->
  Logger s = Some lg ->
  Storage s = Some st ->
  P2p s = Some p ->
  p2p.Logger p = Some plg ->
  db.fault st db.OpGetAllWithPrefix = None ->
  snd (Marshal_OrderList (storedOrders st (pb.ChannelID msg))) = None ->
  snd (Marshal_WireMessage (syncResponse st (pb.ChannelID msg))) = None ->
  p2p.dialFault (p2p.host p) from = Some e ->
  exists s' p',
    Receive buf from s
    = Done (errors_E "Open a sync request stream" (Some e)) s' /\
    Storage s' = Some st /\
    P2p s' = Some p' /\
    p2p.streams p' = p2p.streams p /\
    p2p.host p' = p2p.host p.
Proof.
  intros Hdec Hop Hlg Hst Hp Hplg Hscan Hml Hmw Hdial.
  destruct (OpenStream_unreachable from p plg e Hdial Hplg)
    as (p1 & Hopen & Hstreams & Hhost & _).
  sync_request_start st msg Hdec Hop Hlg Hst Hscan Hml Hmw.
  erewrite bind_Done by (eapply onP2p_Done; [exact Hp | exact Hopen]).
  simpl. eexists. exists p1. split; [reflexivity |]. repeat split; assumption.
Qed.

End ServiceMore.

(** ** The request handlers, continued *)

Section HandlerFacts.

Context `{Externals}.

Import service.

(** X21: an order that cannot be encoded is created all the same.  When
    the encoder returns an error for the order [Create] has built, the error
    goes to the logger and nowhere else: the bytes the encoder did return
    are stored under the order's key and handed to a registered transport in
    the CREATE envelope, and [Create] returns the order without an error. *)
Theorem Create_marshal_failure_unreported
    (now : pb.Timestamp) (in_ : pb.CreateRequest)
    (s : OrderService) (st : db.Storage) (lg : Log) (e : Error) :
  snd (Marshal_Order (createdOrder now in_)) = Some e ->
  Storage s = Some st ->
  Logger s = Some lg ->
  db.fault st db.OpPut = None ->
  exists s' st',
    Create now in_ s
    = Done ({| pb.CreatedOrder := Some (createdOrder now in_) |}, None) s' /\
    Storage s' = Some st' /\
    db.data st'
    = <[orderKey (pb.req_ChannelID in_) (pb.Id (createdOrder now in_))
        := fst (Marshal_Order (createdOrder now in_))]> (db.data st) /\
    Logger s'
    = Some (lg ++ {| level := LevelWarn; format := "";
                     args := [ArgError (errors_E "Marshal order" (Some e))] |}
               :: match P2p s with
                  | Some _ => []
                  | None => [{| level := LevelWarn; format := "";
                                args := [ArgString isolated] |}]
                  end)%list /\
    match P2p s with
    | None => P2p s' = None
    | Some p =>
        exists p', P2p s' = Some p' /\
          p2p.sent p'
          = (p2p.sent p
             ++ [{| pb.ChannelID := pb.req_ChannelID in_;
                    pb.Operation := pb.Operation_CREATE;
                    pb.Data := fst (Marshal_Order (createdOrder now in_)) |}])%list
    end.
Proof.
  intros Hbad Hst Hlg Hput. unfold Create.
  change {| pb.Id := _; pb.Created := _; pb.Asset := _; pb.CounterAsset := _;
            pb.Amount := _; pb.Price := _; pb.State := _ |}
    with (createdOrder now in_).
  destruct (Marshal_Order (createdOrder now in_)) as [orderInBytes e0].
  simpl in Hbad. subst e0.
  unfold bind, onLogger, onStorage, onP2p, through, logf, db.Put, p2p.Send,
    get, ret.
  destruct (P2p s) as [p|] eqn:Hp;
    repeat (progress (simpl; rewrite ?Hp, ?Hlg, ?Hst, ?Hput));
    (eexists; eexists; split; [reflexivity |]); simpl;
    repeat (split; [reflexivity |]).
  - eauto.
  - split; [now rewrite <- List.app_assoc | exact Hp].
Qed.

(** X22: on a node without storage the four request handlers that use the
    store panic: unlike [Receive], they call it without a nil test. *)
Theorem handlers_without_storage (now : pb.Timestamp) (req : pb.CreateRequest)
    (in_ : pb.OrderSpecificRequest) (s : OrderService) :
  Storage s = None ->
  (exists s', Create now req s = Crash NilDereference s') /\
  GetOrder in_ s = Crash NilDereference s /\
  GetAllOrders s = Crash NilDereference s /\
  Delete in_ s = Crash NilDereference s.
Proof.
  intros Hst. repeat split.
  - unfold Create. destruct (Marshal_Order _) as [bytes [e|]]; simpl.
    + unfold bind, onLogger, onStorage, through, logf.
      destruct (Logger s); simpl; rewrite ?Hst; eexists; reflexivity.
    + unfold bind, onStorage, through, ret. rewrite Hst. eexists; reflexivity.
  - unfold GetOrder, bind, onStorage, through. now rewrite Hst.
  - unfold GetAllOrders, bind, onStorage, through. now rewrite Hst.
  - unfold Delete, bind, onStorage, through. now rewrite Hst.
Qed.

(** X23: [GetOrder], [GetAllOrders], [Lock] and [Unlock] change nothing:
    however they end, the service, its store and its transport are what they
    were; in particular [Lock] and [Unlock] reserve nothing. *)
Theorem handlers_read_only (in_ : pb.OrderSpecificRequest) (s : OrderService) :
  final (GetOrder in_ s) = s /\
  final (GetAllOrders s) = s /\
  final (Lock in_ s) = s /\
  final (Unlock in_ s) = s.
Proof.
  repeat split.
  - unfold GetOrder, bind, onStorage, through, db.Get, ret.
    destruct s as [l [st|] p x b]; simpl; [| reflexivity].
    destruct (db.fault st db.OpGet); simpl; [reflexivity |].
    destruct (db.data st !! _); reflexivity.
  - unfold GetAllOrders, bind, onStorage, through, db.GetAllWithPrefix, ret.
    destruct s as [l [st|] p x b]; simpl; [| reflexivity].
    destruct (db.fault st db.OpGetAllWithPrefix); reflexivity.
Qed.

(** X24: [GetOrder] for a key the store does not hold returns no order and
    the store's missing-key error under the label "Get order". *)
Theorem GetOrder_missing (in_ : pb.OrderSpecificRequest) (s : OrderService)
    (st : db.Storage) :
  Storage s = Some st ->
  db.fault st db.OpGet = None ->
  db.data st !! orderKey (pb.osr_ChannelID in_) (pb.osr_OrderID in_) = None ->
  GetOrder in_ s = Done (None, errors_E "Get order" (Some db.notFound)) s.
Proof.
  intros Hst Hget Hnone. rewrite (GetOrder_run in_ s st Hst Hget).
  now rewrite Hnone.
Qed.

(** X25: [GetOrder] for a key the store holds returns what the stored
    bytes decode to and no error, whether or not the decoding succeeded: a
    corrupt entry yields a partly filled order, not an error. *)
Theorem GetOrder_present (in_ : pb.OrderSpecificRequest) (s : OrderService)
    (st : db.Storage) (v : string) :
  Storage s = Some st ->
  db.fault st db.OpGet = None ->
  db.data st !! orderKey (pb.osr_ChannelID in_) (pb.osr_OrderID in_) = Some v ->
  GetOrder in_ s = Done (Some (fst (Unmarshal_Order v)), None) s.
Proof.
  intros Hst Hget Hv. rewrite (GetOrder_run in_ s st Hst Hget).
  now rewrite Hv.
Qed.

(** X26: [GetAllOrders] returns one order for each entry whose key starts
    with the order prefix, so that every entry stored under an order key,
    of whatever channel, is in the list. *)
Theorem GetAllOrders_lists_stored (s : OrderService) (st : db.Storage)
    (channelID orderID v : string) :
  Storage s = Some st ->
  db.fault st db.OpGetAllWithPrefix = None ->
  db.data st !! orderKey channelID orderID = Some v ->
  exists l,
    GetAllOrders s = Done (Some l, None) s /\
    In (fst (Unmarshal_Order v)) (pb.Orders l) /\
    length (pb.Orders l)
    = size (filter (fun kv : string * string =>
                      Bytes.HasPrefix kv.1 OrderPrefix = true) (db.data st)).
Proof.
  intros Hst Hscan Hv.
  unfold GetAllOrders, bind, onStorage, through, db.GetAllWithPrefix, ret.
  rewrite Hst, Hscan. simpl.
  eexists. split; [destruct s; simpl in *; subst; reflexivity |]. simpl.
  split.
  - apply (in_map (fun kv : string * string => fst (Unmarshal_Order kv.2))
                  _ (orderKey channelID orderID, v)).
    apply list_elem_of_In, elem_of_map_to_list.
    apply map_lookup_filter_Some. split; [exact Hv |].
    simpl. apply OrderPrefix_prefix_of_key.
  - rewrite length_map. apply length_map_to_list.
Qed.

(** X27: [Delete] broadcasts before it removes: when the removal fails,
    the DELETE envelope with the order's bytes has already gone to the
    transport, the order is still stored, and the call returns a non-nil reply
    together with the error. *)
Theorem Delete_not_atomic (in_ : pb.OrderSpecificRequest) (s : OrderService)
    (st : db.Storage) (p : p2p.P2p) (v : string) (e : Error) :
  Storage s = Some st ->
  P2p s = Some p ->
  db.fault st db.OpGet = None ->
  db.data st !! orderKey (pb.osr_ChannelID in_) (pb.osr_OrderID in_) = Some v ->
  db.fault st db.OpDelete = Some e ->
  exists s' p',
    Delete in_ s = Done (Some pb.mkEmpty, errors_E "Delete order" (Some e)) s' /\
    Storage s' = Some st /\
    P2p s' = Some p' /\
    p2p.sent p'
    = (p2p.sent p ++ [{| pb.ChannelID := pb.osr_ChannelID in_;
                         pb.Operation := pb.Operation_DELETE;
                         pb.Data := v |}])%list.
Proof.
  intros Hst Hp Hget Hv Hdel.
  unfold Delete, bind, onStorage, onP2p, onLogger, through, db.Get,
    db.Delete, p2p.Send, logf, get, ret.
  rewrite Hst, Hget, Hv.
  repeat (progress (simpl; rewrite ?Hp, ?Hst, ?Hdel)).
  eexists. eexists. split; [reflexivity |]. simpl. repeat split.
Qed.

(** X28: [Create] followed by [Delete] of the created order, on a node
    with a working store and a transport, leaves the stored entries as they
    were before (the key being free), and has handed the transport a CREATE
    and then a DELETE envelope with the same bytes. *)
Theorem Create_then_Delete_restores
    (now : pb.Timestamp) (in_ : pb.CreateRequest)
    (s : OrderService) (st : db.Storage) (lg : Log) (p : p2p.P2p) :
  Storage s = Some st ->
  Logger s = Some lg ->
  P2p s = Some p ->
  db.healthy st ->
  db.data st !! orderKey (pb.req_ChannelID in_)
                  (HMAC_SHA256 "mysecret"
                     (CreateRequest_String in_ +:+ Timestamp_String now)) = None ->
  exists order s1 s2 st2 p2,
    Create now in_ s = Done ({| pb.CreatedOrder := Some order |}, None) s1 /\
    Delete {| pb.osr_OrderID := pb.Id order;
              pb.osr_ChannelID := pb.req_ChannelID in_ |} s1
    = Done (Some pb.mkEmpty, None) s2 /\
    Storage s2 = Some st2 /\
    db.data st2 = db.data st /\
    P2p s2 = Some p2 /\
    p2p.sent p2
    = (p2p.sent p
         ++ [{| pb.ChannelID := pb.req_ChannelID in_;
                pb.Operation := pb.Operation_CREATE;
                pb.Data := fst (Marshal_Order order) |};
             {| pb.ChannelID := pb.req_ChannelID in_;
                pb.Operation := pb.Operation_DELETE;
                pb.Data := fst (Marshal_Order order) |}])%list.
Proof.
  intros Hst Hlg Hp Hok Hfree.
  destruct (Create_run now in_ s st lg Hst Hlg)
    as (order & s1 & st1 & Hrun & Hid & _ & _ & _ & _ & _ & _ & Hst1 & Hwrite & Hnet).
  rewrite (Hok db.OpPut) in Hrun. rewrite Hp in Hnet.
  destruct Hnet as (p1 & Hp1 & Hsent1).
  unfold db.Put in Hwrite. rewrite (Hok db.OpPut) in Hwrite.
  injection Hwrite as <-.
  set (in' := {| pb.osr_OrderID := pb.Id order;
                 pb.osr_ChannelID := pb.req_ChannelID in_ |}).
  destruct (Delete_present in' s1 _ (fst (Marshal_Order order)) Hst1)
    as (s2 & Hdel & Hst2 & Hnet2).
  - intros op. exact (Hok op).
  - simpl. apply lookup_insert_eq.
  - rewrite Hp1. discriminate.
  - rewrite Hp1 in Hnet2. destruct Hnet2 as (p2 & Hp2 & Hsent2).
    exists order, s1, s2. eexists. exists p2.
    split; [exact Hrun |]. split; [exact Hdel |]. split; [exact Hst2 |].
    simpl. split.
    + rewrite Hid. now apply delete_insert_id.
    + split; [exact Hp2 |]. rewrite Hsent2, Hsent1. simpl.
      now rewrite <- List.app_assoc.
Qed.

(** X29: replication of a created order.  Node X creates an order; node Y
    receives a buffer that decodes to the CREATE envelope X handed to its
    transport, and the codec reads the order's id back from the order's
    bytes.  Then Y holds, under the same key, the same bytes as X, and
    [GetOrder] on Y returns the order those bytes decode to. *)
Theorem Create_then_Receive_replica
    (now : pb.Timestamp) (in_ : pb.CreateRequest) (buf from : string)
    (sx sx' sy : OrderService) (order order' : pb.Order)
    (stx sty : db.Storage) (lgx lgy : Log) (px : p2p.P2p) :
  Storage sx = Some stx ->
  Logger sx = Some lgx ->
  P2p sx = Some px ->
  Create now in_ sx = Done ({| pb.CreatedOrder := Some order |}, None) sx' ->
  Unmarshal_WireMessage buf
  = ({| pb.ChannelID := pb.req_ChannelID in_;
        pb.Operation := pb.Operation_CREATE;
        pb.Data := fst (Marshal_Order order) |}, None) ->
  Unmarshal_Order (fst (Marshal_Order order)) = (order', None) ->
  pb.Id order' = pb.Id order ->
  Storage sy = Some sty ->
  Logger sy = Some lgy ->
  db.healthy sty ->
  exists px' stx' sy' sty',
    P2p sx' = Some px' /\
    p2p.sent px'
    = (p2p.sent px ++ [{| pb.ChannelID := pb.req_ChannelID in_;
                          pb.Operation := pb.Operation_CREATE;
                          pb.Data := fst (Marshal_Order order) |}])%list /\
    Storage sx' = Some stx' /\
    Receive buf from sy = Done None sy' /\
    Storage sy' = Some sty' /\
    db.data sty' !! orderKey (pb.req_ChannelID in_) (pb.Id order)
    = db.data stx' !! orderKey (pb.req_ChannelID in_) (pb.Id order) /\
    db.data sty' !! orderKey (pb.req_ChannelID in_) (pb.Id order)
    = Some (fst (Marshal_Order order)) /\
    GetOrder {| pb.osr_OrderID := pb.Id order;
                pb.osr_ChannelID := pb.req_ChannelID in_ |} sy'
    = Done (Some order', None) sy'.
Proof.
  intros Hstx Hlgx Hpx Hcreate Hdec Hord Hid Hsty Hlgy Hok.
  destruct (Create_run now in_ sx stx lgx Hstx Hlgx)
    as (o & s1 & st1 & Hrun & _ & _ & _ & _ & _ & _ & _ & Hst1 & Hwrite & Hnet).
  rewrite Hrun in Hcreate.
  destruct (db.fault stx db.OpPut) as [e|] eqn:Hput; [discriminate |].
  injection Hcreate as -> ->.
  rewrite Hpx in Hnet. destruct Hnet as (px' & Hpx' & Hsent).
  unfold db.Put in Hwrite. rewrite Hput in Hwrite. injection Hwrite as <-.
  destruct (Receive_create_run buf from sy _ order' lgy sty
              Hdec eq_refl Hord Hlgy Hsty (Hok db.OpPut))
    as (sy' & sty' & Hrecv & Hsty' & Hdata & Hfault & _).
  simpl in Hdata. rewrite Hid in Hdata.
  exists px'. eexists. exists sy', sty'.
  split; [exact Hpx' |]. split; [exact Hsent |]. split; [exact Hst1 |].
  split; [exact Hrecv |]. split; [exact Hsty' |]. simpl.
  rewrite Hdata, !lookup_insert_eq. repeat split.
  rewrite (GetOrder_run _ sy' sty' Hsty') by (rewrite Hfault; apply Hok).
  simpl. rewrite Hdata, lookup_insert_eq. now rewrite Hord.
Qed.

End HandlerFacts.

(** ** Configuration *)

Section ConfigFacts.

Import config.

Variable Value : Type.
Variable viper_Get : Viper -> string -> Value.
Variable viper_ReadInConfig : Viper -> ReadOutcome.
Variable cast_ToStringE : Value -> string * error.
Variable cast_ToBoolE : Value -> bool * error.

Lemma AddStringE_run (key : string) (c : Config) (x : Viper)
    (ss : gmap string string) :
  v c = Some x -> strings c = Some ss ->
  AddStringE Value viper_Get cast_ToStringE key c
  = Done (snd (cast_ToStringE (viper_Get x key)))
         (setStrings (<[key := fst (cast_ToStringE (viper_Get x key))]> ss)
                     (setV x c)).
Proof.
  intros Hv Hs. unfold AddStringE, Get, storeString, onViper, through, bind, ret.
  rewrite Hv. simpl. destruct (cast_ToStringE (viper_Get x key)). simpl.
  now rewrite Hs.
Qed.

Lemma AddBooleanE_run (key : string) (c : Config) (x : Viper)
    (bs : gmap string bool) :
  v c = Some x -> booleans c = Some bs ->
  AddBooleanE Value viper_Get cast_ToBoolE key c
  = Done (snd (cast_ToBoolE (viper_Get x key)))
         (setBooleans (<[key := fst (cast_ToBoolE (viper_Get x key))]> bs)
                      (setV x c)).
Proof.
  intros Hv Hs. unfold AddBooleanE, Get, storeBoolean, onViper, through, bind, ret.
  rewrite Hv. simpl. destruct (cast_ToBoolE (viper_Get x key)). simpl.
  now rewrite Hs.
Qed.

(** X30: [ReadConfig] returns on every [Config], whatever the
    configuration file and the environment hold and however reading the file
    ends.  Afterwards the string cache has exactly the five path and port
    keys and the boolean cache exactly the ten other keys, [log.level] and
    [log.format] among them; each cached value is the cast of what viper
    finds for the key, the cast's error being dropped. *)
Theorem ReadConfig_caches (configPath : string) (c : Config) :
  exists c' ss bs,
    ReadConfig Value viper_Get viper_ReadInConfig cast_ToStringE cast_ToBoolE
      configPath c = Done tt c' /\
    v c' = Some (configured configPath) /\
    strings c' = Some ss /\
    booleans c' = Some bs /\
    dom ss = {[dbPathVar; p2pExternalIPVar; p2pPortVar; rpcPortVar; websocketPortVar]} /\
    (forall k, k ∈ dom ss ->
       ss !! k = Some (fst (cast_ToStringE (viper_Get (configured configPath) k)))) /\
    dom bs = {[websocketEnableVar; dbInMemoryVar; p2pNATPortMapVar; p2pRelayVar;
               p2pAutoRelayVar; p2pDebugVar; errorsEnableStackTraceVar; ipfsPeerVar;
               logLevelVar; logFormatVar]} /\
    (forall k, k ∈ dom bs ->
       bs !! k = Some (fst (cast_ToBoolE (viper_Get (configured configPath) k)))).
Proof.
  unfold ReadConfig.
  unfold bind at 1. unfold bind at 1. unfold onViper at 1, through at 1. simpl.
  assert (Hpaths : exists c1,
    (if negb (configPath =? "")%string
     then onViper (fun x => Done tt
            {| envPrefix := envPrefix x; envKeyReplacer := envKeyReplacer x;
               automaticEnv := automaticEnv x; configName := configName x;
               configType := configType x;
               configPaths := (configPaths x ++ ["."; configPath])%list |})
     else ret tt)
      (setV {| envPrefix := "sprawl"; envKeyReplacer := ["."; "_"];
               automaticEnv := true; configName := "config"; configType := "toml";
               configPaths := [] |}
            {| v := Some viper_New; strings := Some ∅; booleans := Some ∅;
               stdout := stdout c |})
    = Done tt c1 /\ v c1 = Some (configured configPath) /\
      strings c1 = Some ∅ /\ booleans c1 = Some ∅).
  { unfold configured. destruct (configPath =? "")%string; simpl;
      eexists; (split; [reflexivity |]); repeat split. }
  destruct Hpaths as (c1 & Hrun1 & Hv1 & Hs1 & Hb1).
  erewrite bind_Done by exact Hrun1.
  unfold bind at 1. unfold onViper at 1, through at 1. rewrite Hv1.
  assert (Hprint : exists c2,
    (match viper_ReadInConfig (configured configPath) with
     | Loaded => Println "Config successfully loaded."
     | ConfigFileNotFoundError _ => Println "Config file not found, using ENV"
     | OtherError _ => Println "Config file invalid!"
     end) (setV (configured configPath) c1) = Done tt c2 /\
    v c2 = Some (configured configPath) /\
    strings c2 = Some ∅ /\ booleans c2 = Some ∅).
  { destruct (viper_ReadInConfig _); unfold Println; simpl;
      eexists; (split; [reflexivity |]); repeat split; assumption. }
  destruct Hprint as (c2 & Hrun2 & Hv2 & Hs2 & Hb2).
  erewrite bind_Done by exact Hrun2.
  do 5 (erewrite bind_Done
          by (apply AddStringE_run;
              [eassumption || reflexivity | eassumption || reflexivity])).
  do 10 (erewrite bind_Done
           by (apply AddBooleanE_run;
               [reflexivity | simpl; eassumption || reflexivity])).
  eexists. eexists. eexists. split; [reflexivity |]. simpl.
  split; [reflexivity |]. split; [reflexivity |]. split; [reflexivity |].
  split; [| split; [| split]].
  - rewrite !dom_insert_L, dom_empty_L. set_solver.
  - intros k Hk. rewrite !dom_insert_L, dom_empty_L in Hk.
    repeat (apply elem_of_union in Hk as [Hk | Hk]);
      try (apply elem_of_singleton in Hk; subst k; now simplify_map_eq).
    set_solver.
  - rewrite !dom_insert_L, dom_empty_L. set_solver.
  - intros k Hk. rewrite !dom_insert_L, dom_empty_L in Hk.
    repeat (apply elem_of_union in Hk as [Hk | Hk]);
      try (apply elem_of_singleton in Hk; subst k; now simplify_map_eq).
    set_solver.
Qed.

End ConfigFacts.

(** ** The further properties on the small instance *)

Lemma Receive_create_stores_witness :
  exists s' st',
    service.Receive "0c1:abc" "peerA" Fixture.node = Done None s' /\
    service.Storage s' = Some st' /\
    db.data st' = <[service.orderKey "c1" "abc" := "abc"]> (db.data Fixture.emptyStore) /\
    service.P2p s' = service.P2p Fixture.node.
Proof.
  apply (Receive_create_stores "0c1:abc" "peerA" Fixture.node
           {| pb.ChannelID := "c1"; pb.Operation := pb.Operation_CREATE;
              pb.Data := "abc" |}
           (Fixture.orderOfId "abc") nil Fixture.emptyStore); reflexivity.
Defined.

Lemma Receive_create_idempotent_witness :
  exists s1 s2 st1 st2,
    service.Receive "0c1:abc" "peerA" Fixture.node = Done None s1 /\
    service.Receive "0c1:abc" "peerA" s1 = Done None s2 /\
    service.Storage s1 = Some st1 /\
    service.Storage s2 = Some st2 /\
    db.data st2 = db.data st1.
Proof.
  apply (Receive_create_idempotent "0c1:abc" "peerA" Fixture.node
           {| pb.ChannelID := "c1"; pb.Operation := pb.Operation_CREATE;
              pb.Data := "abc" |}
           (Fixture.orderOfId "abc") nil Fixture.emptyStore); reflexivity.
Defined.

Lemma Receive_bad_payload_witness :
  exists s',
    @service.Receive Fixture.faulty "0c1:" "peerA" Fixture.node
    = Done (errors_E "Unmarshal order proto in Receive" (Some Fixture.malformed)) s' /\
    service.Storage s' = Some Fixture.emptyStore /\
    service.P2p s' = service.P2p Fixture.node.
Proof.
  apply (@Receive_bad_payload Fixture.faulty "0c1:" "peerA" Fixture.node
           {| pb.ChannelID := "c1"; pb.Operation := pb.Operation_CREATE;
              pb.Data := "" |}
           nil Fixture.emptyStore); try reflexivity.
  left. reflexivity.
Defined.

Lemma Receive_delete_unknown_witness :
  exists s' st',
    service.Receive "1c1:abc" "peerA" Fixture.node = Done None s' /\
    service.Storage s' = Some st' /\
    db.data st' = db.data Fixture.emptyStore /\
    service.P2p s' = service.P2p Fixture.node.
Proof.
  apply (Receive_delete_unknown "1c1:abc" "peerA" Fixture.node
           {| pb.ChannelID := "c1"; pb.Operation := pb.Operation_DELETE;
              pb.Data := "abc" |}
           (Fixture.orderOfId "abc") nil Fixture.emptyStore); reflexivity.
Defined.

Lemma Receive_create_then_delete_witness :
  exists s1 s2 st1 st2,
    service.Receive "0c1:abc" "peerA" Fixture.node = Done None s1 /\
    service.Receive "1c1:abc" "peerB" s1 = Done None s2 /\
    service.Storage s1 = Some st1 /\
    db.data st1 !! service.orderKey "c1" "abc" = Some "abc" /\
    service.Storage s2 = Some st2 /\
    db.data st2 = db.data Fixture.emptyStore.
Proof.
  apply (Receive_create_then_delete "0c1:abc" "1c1:abc" "peerA" "peerB"
           Fixture.node "c1" "abc" (Fixture.orderOfId "abc") nil Fixture.emptyStore);
    try reflexivity.
  intros op. reflexivity.
Defined.

Lemma Receive_create_then_GetOrder_witness :
  exists s',
    service.Receive "0c1:abc" "peerA" Fixture.node = Done None s' /\
    service.GetOrder {| pb.osr_OrderID := "abc"; pb.osr_ChannelID := "c1" |} s'
    = Done (Some (Fixture.orderOfId "abc"), None) s'.
Proof.
  apply (Receive_create_then_GetOrder "0c1:abc" "peerA" Fixture.node
           {| pb.ChannelID := "c1"; pb.Operation := pb.Operation_CREATE;
              pb.Data := "abc" |}
           (Fixture.orderOfId "abc") nil Fixture.emptyStore); reflexivity.
Defined.

Lemma Receive_sync_receive_swallows_witness :
  exists s' st',
    service.Receive "3c1:a;b;" "peerA" Fixture.fullNode = Done None s' /\
    service.Storage s' = Some st' /\
    db.data st' = db.data Fixture.readOnlyStore.
Proof.
  apply (Receive_sync_receive_swallows "3c1:a;b;" "peerA" Fixture.fullNode
           {| pb.ChannelID := "c1"; pb.Operation := pb.Operation_SYNC_RECEIVE;
              pb.Data := "a;b;" |}
           {| pb.Orders := [Fixture.orderOfId "a"; Fixture.orderOfId "b"] |}
           nil Fixture.readOnlyStore (Failure "disk full")); reflexivity.
Defined.

Lemma Receive_sync_receive_stores_all_witness :
  exists s' st',
    service.Receive "3c1:a;b;" "peerA" Fixture.node = Done None s' /\
    service.Storage s' = Some st' /\
    (forall o, In o [Fixture.orderOfId "a"; Fixture.orderOfId "b"] ->
       db.data st' !! service.orderKey "c1" (pb.Id o) = Some (fst (Marshal_Order o))) /\
    (forall k,
       (forall o, In o [Fixture.orderOfId "a"; Fixture.orderOfId "b"] ->
          service.orderKey "c1" (pb.Id o) <> k) ->
       db.data st' !! k = db.data Fixture.emptyStore !! k).
Proof.
  apply (Receive_sync_receive_stores_all "3c1:a;b;" "peerA" Fixture.node
           {| pb.ChannelID := "c1"; pb.Operation := pb.Operation_SYNC_RECEIVE;
              pb.Data := "a;b;" |}
           {| pb.Orders := [Fixture.orderOfId "a"; Fixture.orderOfId "b"] |}
           nil Fixture.emptyStore); try reflexivity.
  apply (bool_decide_unpack _). vm_compute. exact I.
Defined.

Lemma Receive_unknown_operation_witness :
  exists s',
    @service.Receive Fixture.faulty "9c1" "peerA" Fixture.node = Done None s' /\
    service.Storage s' = Some Fixture.emptyStore /\
    service.P2p s' = service.P2p Fixture.node.
Proof.
  apply (@Receive_unknown_operation Fixture.faulty "9c1" "peerA" Fixture.node
           {| pb.ChannelID := "c1"; pb.Operation := 9; pb.Data := "" |}
           nil Fixture.emptyStore); try reflexivity.
  right. simpl. lia.
Defined.

Lemma Receive_keeps_transport_witness :
  service.P2p (final (service.Receive "0c1:abc" "peerA" Fixture.node))
  = service.P2p Fixture.node.
Proof.
  apply (Receive_keeps_transport "0c1:abc" "peerA" Fixture.node).
  vm_compute. discriminate.
Defined.

Lemma Receive_sync_request_unreachable_witness :
  exists s' p',
    service.Receive "2c1:" "peerA" Fixture.offlineNode
    = Done (errors_E "Open a sync request stream" (Some (Failure "no route"))) s' /\
    service.Storage s' = Some Fixture.emptyStore /\
    service.P2p s' = Some p' /\
    p2p.streams p' = p2p.streams Fixture.offlineTransport /\
    p2p.host p' = p2p.host Fixture.offlineTransport.
Proof.
  apply (Receive_sync_request_unreachable "2c1:" "peerA" Fixture.offlineNode
           {| pb.ChannelID := "c1"; pb.Operation := pb.Operation_SYNC_REQUEST;
              pb.Data := "" |}
           nil Fixture.emptyStore Fixture.offlineTransport nil (Failure "no route"));
    reflexivity.
Defined.

Lemma Create_marshal_failure_unreported_witness :
  exists s' st',
    @service.Create Fixture.strict Fixture.noon Fixture.garbled Fixture.node
    = Done ({| pb.CreatedOrder :=
                 Some (@service.createdOrder Fixture.strict Fixture.noon
                         Fixture.garbled) |}, None) s' /\
    service.Storage s' = Some st' /\
    db.data st'
    = <[@service.orderKey Fixture.strict "c1"
          (pb.Id (@service.createdOrder Fixture.strict Fixture.noon Fixture.garbled))
        := ""]> (db.data Fixture.emptyStore) /\
    service.Logger s'
    = Some [{| level := LevelWarn; format := "";
               args := [ArgError (errors_E "Marshal order"
                                    (Some (Failure "invalid UTF-8")))] |}] /\
    exists p', service.P2p s' = Some p' /\
      p2p.sent p'
      = [{| pb.ChannelID := "c1"; pb.Operation := pb.Operation_CREATE;
            pb.Data := "" |}].
Proof.
  apply (@Create_marshal_failure_unreported Fixture.strict Fixture.noon
           Fixture.garbled Fixture.node Fixture.emptyStore nil
           (Failure "invalid UTF-8")); reflexivity.
Defined.

Lemma handlers_without_storage_witness :
  (exists s', service.Create Fixture.noon Fixture.request Fixture.relay
              = Crash NilDereference s') /\
  service.GetOrder Fixture.o1 Fixture.relay = Crash NilDereference Fixture.relay /\
  service.GetAllOrders Fixture.relay = Crash NilDereference Fixture.relay /\
  service.Delete Fixture.o1 Fixture.relay = Crash NilDereference Fixture.relay.
Proof.
  apply (handlers_without_storage Fixture.noon Fixture.request Fixture.o1
           Fixture.relay). reflexivity.
Defined.

Lemma GetOrder_missing_witness :
  service.GetOrder Fixture.o1 Fixture.node
  = Done (None, errors_E "Get order" (Some db.notFound)) Fixture.node.
Proof.
  apply (GetOrder_missing Fixture.o1 Fixture.node Fixture.emptyStore); reflexivity.
Defined.

Lemma GetOrder_present_witness :
  service.GetOrder Fixture.o1 Fixture.stockedNode
  = Done (Some (fst (Unmarshal_Order "o1")), None) Fixture.stockedNode.
Proof.
  apply (GetOrder_present Fixture.o1 Fixture.stockedNode Fixture.stockedStore "o1");
    reflexivity.
Defined.

Lemma GetAllOrders_lists_stored_witness :
  exists l,
    service.GetAllOrders Fixture.stockedNode = Done (Some l, None) Fixture.stockedNode /\
    In (fst (Unmarshal_Order "o1")) (pb.Orders l) /\
    length (pb.Orders l)
    = size (filter (fun kv : string * string =>
                      Bytes.HasPrefix kv.1 OrderPrefix = true)
                   (db.data Fixture.stockedStore)).
Proof.
  apply (GetAllOrders_lists_stored Fixture.stockedNode Fixture.stockedStore
           "c1" "o1" "o1"); reflexivity.
Defined.

Lemma Delete_not_atomic_witness :
  exists s' p',
    service.Delete Fixture.o1 Fixture.stuckNode
    = Done (Some pb.mkEmpty, errors_E "Delete order" (Some (Failure "read-only"))) s' /\
    service.Storage s' = Some Fixture.stuckStore /\
    service.P2p s' = Some p' /\
    p2p.sent p'
    = [{| pb.ChannelID := "c1"; pb.Operation := pb.Operation_DELETE;
          pb.Data := "o1" |}].
Proof.
  apply (Delete_not_atomic Fixture.o1 Fixture.stuckNode Fixture.stuckStore
           Fixture.transport "o1" (Failure "read-only")); reflexivity.
Defined.

Lemma Create_then_Delete_restores_witness :
  exists order s1 s2 st2 p2,
    service.Create Fixture.noon Fixture.request Fixture.node
    = Done ({| pb.CreatedOrder := Some order |}, None) s1 /\
    service.Delete {| pb.osr_OrderID := pb.Id order; pb.osr_ChannelID := "c1" |} s1
    = Done (Some pb.mkEmpty, None) s2 /\
    service.Storage s2 = Some st2 /\
    db.data st2 = db.data Fixture.emptyStore /\
    service.P2p s2 = Some p2 /\
    p2p.sent p2
    = [{| pb.ChannelID := "c1"; pb.Operation := pb.Operation_CREATE;
          pb.Data := fst (Marshal_Order order) |};
       {| pb.ChannelID := "c1"; pb.Operation := pb.Operation_DELETE;
          pb.Data := fst (Marshal_Order order) |}].
Proof.
  apply (Create_then_Delete_restores Fixture.noon Fixture.request Fixture.node
           Fixture.emptyStore nil Fixture.transport); try reflexivity.
  intros op. reflexivity.
Defined.

Lemma Create_then_Receive_replica_witness :
  exists px' stx' sy' sty',
    service.P2p (final (service.Create Fixture.noon Fixture.request Fixture.node))
    = Some px' /\
    p2p.sent px'
    = [{| pb.ChannelID := "c1"; pb.Operation := pb.Operation_CREATE;
          pb.Data := "mysecret/c1,ETH,BTClater" |}] /\
    service.Storage (final (service.Create Fixture.noon Fixture.request Fixture.node))
    = Some stx' /\
    service.Receive "0c1:mysecret/c1,ETH,BTClater" "peerX" Fixture.node = Done None sy' /\
    service.Storage sy' = Some sty' /\
    db.data sty' !! service.orderKey "c1" "mysecret/c1,ETH,BTClater"
    = db.data stx' !! service.orderKey "c1" "mysecret/c1,ETH,BTClater" /\
    db.data sty' !! service.orderKey "c1" "mysecret/c1,ETH,BTClater"
    = Some "mysecret/c1,ETH,BTClater" /\
    service.GetOrder {| pb.osr_OrderID := "mysecret/c1,ETH,BTClater";
                        pb.osr_ChannelID := "c1" |} sy'
    = Done (Some (Fixture.orderOfId "mysecret/c1,ETH,BTClater"), None) sy'.
Proof.
  exact (Create_then_Receive_replica Fixture.noon Fixture.request
           "0c1:mysecret/c1,ETH,BTClater" "peerX"
           Fixture.node
           (final (service.Create Fixture.noon Fixture.request Fixture.node))
           Fixture.node
           {| pb.Id := "mysecret/c1,ETH,BTClater";
              pb.Created := Some Fixture.noon;
              pb.Asset := "ETH"; pb.CounterAsset := "BTC";
              pb.Amount := 52152; pb.Price := 1045220557;
              pb.State := pb.State_OPEN |}
           (Fixture.orderOfId "mysecret/c1,ETH,BTClater")
           Fixture.emptyStore Fixture.emptyStore nil nil Fixture.transport
           eq_refl eq_refl eq_refl eq_refl eq_refl eq_refl eq_refl eq_refl eq_refl
           (fun op => eq_refl)).
Defined.
